(** * Checkpoint and embedding utilities of [fairseq/utils.py]

    A shallow embedding of the checkpoint codec ([torch_persistent_save],
    [save_state], [load_state], [_upgrade_state_dict]), of the ensemble
    loader ([load_ensemble_for_inference]) and of the embedding parser
    ([parse_embedding]), followed by the properties established for them. *)

From stdpp Require Import gmap strings list fin_maps.

Open Scope string_scope.
Open Scope list_scope.

Local Set Warnings "-register-all".

(** ** Python values *)

(** The objects stored in a checkpoint.  Tensors, optimizer blobs, losses and
    argument namespaces are opaque to [utils.py]: they are [VBlob]s.  Dicts are
    finite maps on string keys, lists are lists. *)
Inductive value : Type :=
| VNone
| VInt (z : Z)
| VStr (s : string)
| VBlob (b : N)
| VList (l : list value)
| VDict (d : gmap string value).

(** A checkpoint as [torch.load] returns it: a dict keyed by field name. *)
Abbreviation dict := (gmap string value).

(** ** Exceptions *)

(** A raised exception: the name of its class as written at the [raise] site
    (or of the built-in that raises it) and its argument.  All of them are
    instances of [Exception], the class the handler of [torch_persistent_save]
    catches; the exits of the interpreter ([KeyboardInterrupt], [SystemExit])
    are outside the model. *)
Record exn : Type := Exn { exn_class : string; exn_arg : string }.

Definition KeyError (k : string) : exn := Exn "KeyError" k.
Definition IndexError (msg : string) : exn := Exn "IndexError" msg.
Definition TypeError (msg : string) : exn := Exn "TypeError" msg.
Definition ValueError (msg : string) : exn := Exn "ValueError" msg.
Definition IOError (msg : string) : exn := Exn "IOError" msg.

Inductive result (A : Type) : Type :=
| Ok (a : A)
| Raise (e : exn).
Arguments Ok {A} a.
Arguments Raise {A} e.

(** ** A state-and-exception monad

    Python mutates objects in place and an exception leaves the mutations done
    so far: a computation maps the store to the store it leaves behind together
    with its outcome. *)
Module Eff.

Definition M (S A : Type) : Type := S -> S * result A.

Definition ret {S A} (a : A) : M S A := fun s => (s, Ok a).

Definition raise {S A} (e : exn) : M S A := fun s => (s, Raise e).

Definition bind {S A B} (m : M S A) (k : A -> M S B) : M S B :=
  fun s =>
    match m s with
    | (s', Ok a) => k a s'
    | (s', Raise e) => (s', Raise e)
    end.

Definition get {S} : M S S := fun s => (s, Ok s).

Definition modify {S} (f : S -> S) : M S unit := fun s => (f s, Ok tt).

Definition lift {S A} (r : result A) : M S A := fun s => (s, r).

End Eff.

Notation "'let*' x ':=' m 'in' k" := (Eff.bind m (fun x => k))
  (at level 10, x pattern, m at level 100, k at level 200, only parsing).
Notation "m ';;' k" := (Eff.bind m (fun _ => k))
  (at level 100, k at level 200, right associativity, only parsing).

(** ** Dict operations on the store *)

(** [k in state] *)
Definition contains (k : string) : Eff.M dict bool :=
  fun s => (s, Ok (bool_decide (is_Some (s !! k)))).

(** [state[k]] *)
Definition getitem (k : string) : Eff.M dict value :=
  fun s =>
    match s !! k with
    | Some v => (s, Ok v)
    | None => (s, Raise (KeyError k))
    end.

(** [state[k] = v] *)
Definition setitem (k : string) (v : value) : Eff.M dict unit :=
  fun s => (<[k:=v]> s, Ok tt).

(** [del state[k]] *)
Definition delitem (k : string) : Eff.M dict unit :=
  fun s =>
    match s !! k with
    | Some _ => (delete k s, Ok tt)
    | None => (s, Raise (KeyError k))
    end.

(** ** Format upgrade *)

(** [criterions.CrossEntropyCriterion.__name__] *)
Definition CrossEntropyCriterion__name__ : string := "CrossEntropyCriterion".

(** The entry of an optimizer history: the dict literal
    [{'criterion_name': .., 'optimizer': .., 'best_loss': ..}]. *)
Definition optim_entry (criterion_name optimizer best_loss : value) : value :=
  VDict (<["best_loss" := best_loss]>
          (<["optimizer" := optimizer]>
            (<["criterion_name" := criterion_name]> ∅))).

(** The dict literal [{'epoch': .., 'batch_offset': .., 'val_loss': ..}]. *)
Definition extra_state_record (epoch batch_offset val_loss : value) : value :=
  VDict (<["val_loss" := val_loss]>
          (<["batch_offset" := batch_offset]>
            (<["epoch" := epoch]> ∅))).

(** First block of [_upgrade_state_dict]: add [optimizer_history]. *)
Definition upgrade_optimizer_history : Eff.M dict unit :=
  let* has_history := contains "optimizer_history" in
  if negb has_history then
    let* optimizer := getitem "optimizer" in
    let* best_loss := getitem "best_loss" in
    setitem "optimizer_history"
      (VList [optim_entry (VStr CrossEntropyCriterion__name__) optimizer best_loss]);;
    delitem "optimizer";;
    delitem "best_loss"
  else Eff.ret tt.

(** Second block of [_upgrade_state_dict]: move the extra state into a
    sub-dictionary. *)
Definition upgrade_extra_state : Eff.M dict unit :=
  let* has_epoch := contains "epoch" in
  let* has_extra := contains "extra_state" in
  if has_epoch && negb has_extra then
    let* epoch := getitem "epoch" in
    let* batch_offset := getitem "batch_offset" in
    let* val_loss := getitem "val_loss" in
    setitem "extra_state" (extra_state_record epoch batch_offset val_loss);;
    delitem "epoch";;
    delitem "batch_offset";;
    delitem "val_loss"
  else Eff.ret tt.

(** [_upgrade_state_dict(state)]: the store is the dict [state], mutated in
    place; the function returns that same object, so its value is [tt]. *)
Definition _upgrade_state_dict : Eff.M dict unit :=
  upgrade_optimizer_history;;
  upgrade_extra_state.

(** The dict [_upgrade_state_dict(state)] returns, or the exception it
    propagates to its caller. *)
Definition upgraded (state : dict) : result dict :=
  match _upgrade_state_dict state with
  | (state', Ok _) => Ok state'
  | (_, Raise e) => Raise e
  end.

(** ** Subscripts on values *)

(** [d[k]] on a dict. *)
Definition lookup_key (d : dict) (k : string) : result value :=
  match d !! k with
  | Some v => Ok v
  | None => Raise (KeyError k)
  end.

(** [v[k]] for a string key: a dict lookup; other objects do not take string
    subscripts. *)
Definition subscript (v : value) (k : string) : result value :=
  match v with
  | VDict d => lookup_key d k
  | _ => Raise (TypeError "indices must be integers")
  end.

(** The last character of a string, if any. *)
Fixpoint last_char (s : string) : option Ascii.ascii :=
  match s with
  | EmptyString => None
  | String c EmptyString => Some c
  | String _ s' => last_char s'
  end.

(** [v[-1]]: the last item of a list or of a string, a lookup of the key [-1]
    in a dict (whose keys here are strings); [None], integers and opaque
    blobs take no subscript. *)
Definition index_last (v : value) : result value :=
  match v with
  | VList l =>
      match last l with
      | Some x => Ok x
      | None => Raise (IndexError "list index out of range")
      end
  | VStr s =>
      match last_char s with
      | Some c => Ok (VStr (String c EmptyString))
      | None => Raise (IndexError "string index out of range")
      end
  | VDict _ => Raise (KeyError "-1")
  | _ => Raise (TypeError "object is not subscriptable")
  end.

(** [v[0]] on a Python list. *)
Definition index_first {A} (l : list A) : result A :=
  match l with
  | x :: _ => Ok x
  | [] => Raise (IndexError "list index out of range")
  end.

(** [v == name] for a string [name]: only an equal string compares equal. *)
Definition eq_str (v : value) (name : string) : bool :=
  match v with
  | VStr s => String.eqb s name
  | _ => false
  end.

(** ** External collaborators *)

(** Where [torch.load] maps tensor storage. *)
Inductive map_location : Type :=
| DefaultLocation
| Cuda (device : Z)
| Cpu.

(** The file system as [os.path.exists], [torch.load] and [torch.save] see
    it.  Nothing is assumed about these three: [torch_save] may fail or
    succeed at every call. *)
Class Torch : Type := {
  disk : Type;
  os_path_exists : string -> disk -> bool;
  torch_load : string -> map_location -> disk -> result dict;
  torch_save : dict -> string -> disk -> disk * result unit;
}.

(** Models, optimizers and dictionaries.  [load_state_dict] mutates its
    receiver and may fail; [models] is the registry [getattr(models, name)]
    reads, giving the [build_model] of the registered class. *)
Class Collaborators : Type := {
  Model : Type;
  Optimizer : Type;
  Dictionary : Type;
  model_state_dict : Model -> value;
  model_load_state_dict : value -> Eff.M Model unit;
  optimizer_state_dict : Optimizer -> value;
  optimizer_load_state_dict : value -> Eff.M Optimizer unit;
  models : string -> option (value -> Dictionary -> Dictionary -> result Model);
}.

(** [criterion.__class__.__name__] is all [utils.py] reads of a criterion. *)
Record Criterion : Type := { class_name : string }.

(** [lr_scheduler.best] is all [utils.py] reads or writes of a scheduler. *)
Record LRScheduler : Type := { best : value }.

(** ** The world: disk and observable trace *)

Inductive log_level : Type := INFO | WARNING | ERROR.

Inductive event : Type :=
| EvExists (path : string)
| EvLoad (path : string)
| EvSave (path : string) (obj : dict) (ok : bool)
| EvLog (level : log_level) (traceback : exn).

Record world `{Torch} : Type := World { w_disk : disk; w_trace : list event }.
Arguments World {_} w_disk w_trace.

Definition emit `{Torch} (ev : event) : Eff.M world unit :=
  Eff.modify (fun w => World (w_disk w) (w_trace w ++ [ev])).

(** [os.path.exists(filename)] *)
Definition path_exists `{Torch} (filename : string) : Eff.M world bool :=
  emit (EvExists filename);;
  let* w := Eff.get in
  Eff.ret (os_path_exists filename (w_disk w)).

(** [torch.load(filename, map_location=..)] *)
Definition load `{Torch} (filename : string) (loc : map_location) : Eff.M world dict :=
  emit (EvLoad filename);;
  let* w := Eff.get in
  Eff.lift (torch_load filename loc (w_disk w)).

(** [torch.save(obj, filename)] *)
Definition save `{Torch} (obj : dict) (filename : string) : Eff.M world unit :=
  fun w =>
    let (d, r) := torch_save obj filename (w_disk w) in
    let ok := match r with Ok _ => true | Raise _ => false end in
    (World d (w_trace w ++ [EvSave filename obj ok]), r).

(** [logging.error(traceback.format_exc())] inside a handler of [e]. *)
Definition logging_error `{Torch} (e : exn) : Eff.M world unit :=
  emit (EvLog ERROR e).

(** ** Saving *)

(** [try: return body  except Exception: handler] *)
Definition try_except {S A} (body : Eff.M S A) (handler : exn -> Eff.M S A) : Eff.M S A :=
  fun s =>
    match body s with
    | (s', Ok a) => (s', Ok a)
    | (s', Raise e) => handler e s'
    end.

(** The loop of [torch_persistent_save] over the remaining values of [i]:
    a successful [torch.save] returns at once, a failure is swallowed (and
    logged when [i == 2]) and the loop goes on; falling off the loop returns
    [None]. *)
Fixpoint persistent_save_loop `{Torch} (range : list nat) (obj : dict) (filename : string)
  : Eff.M world unit :=
  match range with
  | [] => Eff.ret tt
  | i :: range' =>
      try_except (save obj filename)
        (fun e =>
           (if Nat.eqb i 2 then logging_error e else Eff.ret tt);;
           persistent_save_loop range' obj filename)
  end.

(** [torch_persistent_save(obj, filename)] *)
Definition torch_persistent_save `{Torch} (obj : dict) (filename : string) : Eff.M world unit :=
  persistent_save_loop (seq 0 3) obj filename.

(** The [state_dict] literal of [save_state], after the two [None] defaults. *)
Definition save_state_dict `{Collaborators} (args : value) (model : Model)
    (criterion : Criterion) (optimizer : Optimizer) (lr_scheduler : LRScheduler)
    (optim_history : option (list value)) (extra_state : option value) : dict :=
  let optim_history := default [] optim_history in
  let extra_state := default (VDict ∅) extra_state in
  <["extra_state" := extra_state]>
    (<["optimizer_history" :=
         VList (optim_history ++
                [optim_entry (VStr (class_name criterion))
                             (optimizer_state_dict optimizer)
                             (best lr_scheduler)])]>
      (<["model" := model_state_dict model]>
        (<["args" := args]> ∅))).

(** [save_state(filename, args, model, criterion, optimizer, lr_scheduler,
    optim_history, extra_state)] *)
Definition save_state `{Torch} `{Collaborators} (filename : string) (args : value)
    (model : Model) (criterion : Criterion) (optimizer : Optimizer)
    (lr_scheduler : LRScheduler) (optim_history : option (list value))
    (extra_state : option value) : Eff.M world unit :=
  torch_persistent_save
    (save_state_dict args model criterion optimizer lr_scheduler optim_history extra_state)
    filename.

(** ** Loading *)

(** The objects [load_state] receives by reference and may mutate, together
    with the world. *)
Record env `{Torch} `{Collaborators} : Type := Env {
  e_world : world;
  e_model : Model;
  e_optimizer : Optimizer;
  e_lr_scheduler : LRScheduler;
}.
Arguments Env {_ _} e_world e_model e_optimizer e_lr_scheduler.

(** Run a computation on one component of a larger store. *)
Definition zoom {S T A} (proj : S -> T) (inj : T -> S -> S) (m : Eff.M T A) : Eff.M S A :=
  fun s => let (t, r) := m (proj s) in (inj t s, r).

Definition on_world `{Torch} `{Collaborators} {A} : Eff.M world A -> Eff.M env A :=
  zoom e_world (fun w e => Env w (e_model e) (e_optimizer e) (e_lr_scheduler e)).

Definition on_model `{Torch} `{Collaborators} {A} : Eff.M Model A -> Eff.M env A :=
  zoom e_model (fun m e => Env (e_world e) m (e_optimizer e) (e_lr_scheduler e)).

Definition on_optimizer `{Torch} `{Collaborators} {A} : Eff.M Optimizer A -> Eff.M env A :=
  zoom e_optimizer (fun o e => Env (e_world e) (e_model e) o (e_lr_scheduler e)).

(** [lr_scheduler.best = b] *)
Definition set_best `{Torch} `{Collaborators} (b : value) : Eff.M env unit :=
  Eff.modify (fun e => Env (e_world e) (e_model e) (e_optimizer e) {| best := b |}).

(** ['cuda:{}'.format(cuda_device)] when a device is given. *)
Definition restore_location (cuda_device : option Z) : map_location :=
  match cuda_device with
  | None => DefaultLocation
  | Some d => Cuda d
  end.

(** [load_state(filename, model, criterion, optimizer, lr_scheduler,
    cuda_device)]: the value is the returned pair. *)
Definition load_state `{Torch} `{Collaborators} (filename : string) (criterion : Criterion)
    (cuda_device : option Z) : Eff.M env (value * value) :=
  let* found := on_world (path_exists filename) in
  if negb found then Eff.ret (VNone, VList [])
  else
    let* state := on_world (load filename (restore_location cuda_device)) in
    let* state := Eff.lift (upgraded state) in
    (* load model parameters *)
    let* weights := Eff.lift (lookup_key state "model") in
    on_model (model_load_state_dict weights);;
    (* only load optimizer and lr_scheduler if they match with the checkpoint *)
    let* optim_history := Eff.lift (lookup_key state "optimizer_history") in
    let* last_optim := Eff.lift (index_last optim_history) in
    let* criterion_name := Eff.lift (subscript last_optim "criterion_name") in
    (if eq_str criterion_name (class_name criterion) then
       let* o := Eff.lift (subscript last_optim "optimizer") in
       on_optimizer (optimizer_load_state_dict o);;
       let* b := Eff.lift (subscript last_optim "best_loss") in
       set_best b
     else Eff.ret tt);;
    let* extra_state := Eff.lift (lookup_key state "extra_state") in
    Eff.ret (extra_state, optim_history).

(** The world [load_state] leaves when the file exists and is read. *)
Definition loaded_world `{Torch} (filename : string) (w : world) : world :=
  World (w_disk w) (w_trace w ++ [EvExists filename; EvLoad filename]).

(** ** Ensembles *)

(** [args.model] on an argument namespace, whose attributes are the keys of a
    dict value. *)
Definition args_model (args : value) : result string :=
  match args with
  | VDict d =>
      match d !! "model" with
      | Some (VStr name) => Ok name
      | Some _ => Raise (TypeError "attribute name must be string")
      | None => Raise (Exn "AttributeError" "model")
      end
  | _ => Raise (Exn "AttributeError" "model")
  end.

(** [build_model(args, src_dict, dst_dict)] *)
Definition build_model `{Collaborators} (args : value) (src_dict dst_dict : Dictionary)
  : result Model :=
  match args_model args with
  | Raise e => Raise e
  | Ok name =>
      match models name with
      | None => Raise (Exn "AssertionError" "Missing model type")
      | Some cls => cls args src_dict dst_dict
      end
  end.

(** First loop of [load_ensemble_for_inference]: [states] accumulates the
    loaded checkpoints. *)
Fixpoint load_states `{Torch} (filenames : list string) (states : list dict)
  : Eff.M world (list dict) :=
  match filenames with
  | [] => Eff.ret states
  | filename :: filenames' =>
      let* found := path_exists filename in
      if negb found then Eff.raise (IOError ("Model file not found: " +:+ filename))
      else
        let* state := load filename Cpu in
        load_states filenames' (states ++ [state])
  end.

(** Second loop of [load_ensemble_for_inference]: one model per state. *)
Fixpoint build_ensemble `{Collaborators} (args : value) (src_dict dst_dict : Dictionary)
    (states : list dict) (ensemble : list Model) : result (list Model) :=
  match states with
  | [] => Ok ensemble
  | state :: states' =>
      match build_model args src_dict dst_dict with
      | Raise e => Raise e
      | Ok model =>
          match lookup_key state "model" with
          | Raise e => Raise e
          | Ok weights =>
              match model_load_state_dict weights model with
              | (_, Raise e) => Raise e
              | (model', Ok _) =>
                  build_ensemble args src_dict dst_dict states' (ensemble ++ [model'])
              end
          end
      end
  end.

(** [load_ensemble_for_inference(filenames, src_dict, dst_dict)] *)
Definition load_ensemble_for_inference `{Torch} `{Collaborators} (filenames : list string)
    (src_dict dst_dict : Dictionary) : Eff.M world (list Model) :=
  (* load model architectures and weights *)
  let* states := load_states filenames [] in
  let* first := Eff.lift (index_first states) in
  let* args := Eff.lift (lookup_key first "args") in
  (* build ensemble *)
  Eff.lift (build_ensemble args src_dict dst_dict states []).

(** What the first loop leaves in the trace for the paths it went through. *)
Definition visited (filenames : list string) : list event :=
  flat_map (fun f => [EvExists f; EvLoad f]) filenames.

(** [filename] exists on [d] and [torch.load] yields [state] for it. *)
Definition loads `{Torch} (d : disk) (filename : string) (state : dict) : Prop :=
  os_path_exists filename d = true /\ torch_load filename Cpu d = Ok state.

(** [model] is a model built from [args] with the weights of [state] loaded
    into it. *)
Definition built_from `{Collaborators} (args : value) (src_dict dst_dict : Dictionary)
    (state : dict) (model : Model) : Prop :=
  exists (fresh : Model) (weights : value),
    build_model args src_dict dst_dict = Ok fresh
    /\ state !! "model" = Some weights
    /\ model_load_state_dict weights fresh = (model, Ok tt).

(** ** Successive saves of one run *)

(** The arguments of one [save_state] call other than [optim_history]. *)
Record save_call `{Collaborators} : Type := SaveCall {
  sc_args : value;
  sc_model : Model;
  sc_criterion : Criterion;
  sc_optimizer : Optimizer;
  sc_lr_scheduler : LRScheduler;
  sc_extra_state : option value;
}.

(** The optimizer history a snapshot carries. *)
Definition history_of (snapshot : dict) : option (list value) :=
  match snapshot !! "optimizer_history" with
  | Some (VList h) => Some h
  | _ => None
  end.

(** The history entry a call contributes: criterion type name, exported
    optimizer state and the scheduler's best loss at the time of the call. *)
Definition entry_of `{Collaborators} (c : save_call) : value :=
  optim_entry (VStr (class_name (sc_criterion c)))
              (optimizer_state_dict (sc_optimizer c))
              (best (sc_lr_scheduler c)).

(** The snapshots built by successive [save_state] calls, each call receiving
    as [optim_history] the history of the snapshot built by the call before
    it, the first call receiving [optim_history]. *)
Fixpoint successive_snapshots `{Collaborators} (calls : list save_call)
    (optim_history : option (list value)) : list dict :=
  match calls with
  | [] => []
  | c :: calls' =>
      let snapshot :=
        save_state_dict (sc_args c) (sc_model c) (sc_criterion c) (sc_optimizer c)
                        (sc_lr_scheduler c) optim_history (sc_extra_state c) in
      snapshot :: successive_snapshots calls' (history_of snapshot)
  end.

(** The snapshots a trace shows handed to [torch.save], one per attempt. *)
Definition submitted (tr : list event) : list dict :=
  omap (fun ev => match ev with EvSave _ obj _ => Some obj | _ => None end) tr.

(** The optimizer history of the snapshot last handed to [torch.save]. *)
Definition last_submitted_history `{Torch} (w : world) : option (list value) :=
  match last (submitted (w_trace w)) with
  | Some snapshot => history_of snapshot
  | None => None
  end.

(** A run of successive [save_state] calls to one file: the first call is
    given [optim_history], every later call the history of the snapshot the
    call before it handed to [torch.save]. *)
Fixpoint successive_saves `{Torch} `{Collaborators} (filename : string)
    (calls : list save_call) (optim_history : option (list value)) : Eff.M world unit :=
  match calls with
  | [] => Eff.ret tt
  | c :: calls' =>
      save_state filename (sc_args c) (sc_model c) (sc_criterion c) (sc_optimizer c)
                 (sc_lr_scheduler c) optim_history (sc_extra_state c);;
      let* w := Eff.get in
      successive_saves filename calls' (last_submitted_history w)
  end.

(** ** Embedding files *)

(** [np.fromstring] parses with the platform's float parser, left abstract. *)
Class Numpy : Type := {
  float64 : Type;
  parse_float : string -> option float64;
}.

Definition LF : Ascii.ascii := Ascii.ascii_of_nat 10.
Definition TAB : Ascii.ascii := Ascii.ascii_of_nat 9.
Definition SPACE : Ascii.ascii := Ascii.ascii_of_nat 32.

(** The lines a text file object yields when iterated: each keeps its line
    feed, the last one may lack it.  The content is the decoded text, after
    the translation of line ends to a line feed. *)
Fixpoint file_lines (content : string) : list string :=
  match content with
  | EmptyString => []
  | String c content' =>
      if Ascii.eqb c LF then String c EmptyString :: file_lines content'
      else
        match file_lines content' with
        | [] => [String c EmptyString]
        | line :: lines => String c line :: lines
        end
  end.

(** [line.split(' ', 1)] when it yields two pieces, [None] when the line has
    no space character. *)
Fixpoint split_space (line : string) : option (string * string) :=
  match line with
  | EmptyString => None
  | String c rest =>
      if Ascii.eqb c SPACE then Some (EmptyString, rest)
      else
        match split_space rest with
        | Some (word, vec) => Some (String c word, vec)
        | None => None
        end
  end.

(** The characters C's [isspace] accepts: with [sep=' '], [np.fromstring]
    takes any run of them as a separator. *)
Definition is_space (c : Ascii.ascii) : bool :=
  let n := Ascii.nat_of_ascii c in
  Nat.eqb n 32 || (Nat.leb 9 n && Nat.leb n 13).

(** The maximal runs of non-space characters of [s], [cur] being the run
    under way. *)
Fixpoint words (cur : string) (s : string) : list string :=
  match s with
  | EmptyString => match cur with EmptyString => [] | _ => [cur] end
  | String c s' =>
      if is_space c then
        match cur with
        | EmptyString => words EmptyString s'
        | _ => cur :: words EmptyString s'
        end
      else words (cur +:+ String c EmptyString) s'
  end.

(** Items are parsed until the first one that is not a float.  This follows
    numpy on payloads made of float literals separated by whitespace, the
    payloads of the file format; on a payload of whitespace alone, or on an
    item that only starts with a float, numpy's text parser gives other
    vectors, and no statement below is about such payloads. *)
Fixpoint parse_floats `{Numpy} (items : list string) : list float64 :=
  match items with
  | [] => []
  | item :: items' =>
      match parse_float item with
      | Some x => x :: parse_floats items'
      | None => []
      end
  end.

(** [np.fromstring(vec, sep=' ')] *)
Definition np_fromstring `{Numpy} (vec : string) : list float64 :=
  parse_floats (words EmptyString vec).

(** A Python dict with string keys, in insertion order. *)
Definition table (V : Type) : Type := list (string * V).

(** [d[k] = v]: an existing key keeps its place. *)
Fixpoint dict_set {V} (k : string) (v : V) (d : table V) : table V :=
  match d with
  | [] => [(k, v)]
  | (k', v') :: d' =>
      if String.eqb k k' then (k, v) :: d' else (k', v') :: dict_set k v d'
  end.

(** [d.get(k)] *)
Fixpoint dict_get {V} (k : string) (d : table V) : option V :=
  match d with
  | [] => None
  | (k', v') :: d' => if String.eqb k k' then Some v' else dict_get k d'
  end.

(** The loop of [parse_embedding] over the lines from index [i] on; it yields
    [embedd_dict] and [word] as the loop leaves them. *)
Fixpoint parse_lines `{Numpy} (i : nat) (lines : list string)
    (embedd_dict : table (list float64)) (word : option string)
  : result (table (list float64) * option string) :=
  match lines with
  | [] => Ok (embedd_dict, word)
  | line :: lines' =>
      if Nat.eqb i 0 then parse_lines (S i) lines' embedd_dict word
      else
        match split_space line with
        | None => Raise (ValueError "not enough values to unpack (expected 2, got 1)")
        | Some (word', vec) =>
            parse_lines (S i) lines' (dict_set word' (np_fromstring vec) embedd_dict)
                        (Some word')
        end
  end.

(** [embedd_dict[word]], where [word] is [None] when no line set it. *)
Definition lookup_word {V} (embedd_dict : table V) (word : option string) : result V :=
  match word with
  | None => Raise (KeyError "None")
  | Some w =>
      match dict_get w embedd_dict with
      | Some v => Ok v
      | None => Raise (KeyError w)
      end
  end.

(** The final loop of [parse_embedding]; the store is standard output, one
    pair per [print(len(v), embedd_dim)]. *)
Fixpoint report_dimensions {V} (items : table (list V)) (embedd_dim : nat)
  : Eff.M (list (nat * nat)) unit :=
  match items with
  | [] => Eff.ret tt
  | (k, v) :: items' =>
      (if negb (Nat.eqb (length v) embedd_dim)
       then Eff.modify (fun out => out ++ [(length v, embedd_dim)])
       else Eff.ret tt);;
      report_dimensions items' embedd_dim
  end.

(** [parse_embedding(embed_path)], [content] being the text of the opened
    file. *)
Definition parse_embedding `{Numpy} (content : string)
  : Eff.M (list (nat * nat)) (table (list float64)) :=
  let* parsed := Eff.lift (parse_lines 0 (file_lines content) [] None) in
  let embedd_dict := fst parsed in
  let word := snd parsed in
  let* last_vec := Eff.lift (lookup_word embedd_dict word) in
  let embedd_dim := length last_vec in
  report_dimensions embedd_dict embedd_dim;;
  Eff.ret embedd_dict.

(** ** The words of the specification for an embedding key *)

(** The text of [line] before its first whitespace character. *)
Fixpoint text_before_whitespace (line : string) : string :=
  match line with
  | EmptyString => EmptyString
  | String c rest =>
      if is_space c then EmptyString else String c (text_before_whitespace rest)
  end.

(** ** Text of embedding files *)

(** Whether the character [c] occurs in [s]. *)
Fixpoint occurs (c : Ascii.ascii) (s : string) : bool :=
  match s with
  | EmptyString => false
  | String c' s' => Ascii.eqb c' c || occurs c s'
  end.

(** [line] splits at its first space into the pieces of [row]. *)
Definition splits_as (line : string) (row : string * string) : Prop :=
  line = fst row +:+ String SPACE (snd row) /\ occurs SPACE (fst row) = false.

(** The step of the parsing loop on a line split into [(word, vec)]. *)
Definition add_row `{Numpy} (d : table (list float64)) (row : string * string)
  : table (list float64) :=
  dict_set (fst row) (np_fromstring (snd row)) d.

(** The pairs [print(len(v), embedd_dim)] prints over [items]. *)
Definition dimension_report {V} (items : table (list V)) (embedd_dim : nat)
  : list (nat * nat) :=
  map (fun kv => (length (snd kv), embedd_dim))
      (List.filter (fun kv => negb (Nat.eqb (length (snd kv)) embedd_dim)) items).

(** The report in the words of the specification: the rows whose vector
    length differs from the length of the first parsed row. *)
Definition report_against_first {V} (items : table (list V)) : list (nat * nat) :=
  match items with
  | [] => []
  | (_, first) :: _ => dimension_report items (length first)
  end.

Definition NL : string := String LF EmptyString.

(** The file of the specification's example. *)
Definition embedding_example : string :=
  "2 5" +:+ NL +:+ "the -0.1 -0.2 0.3 0.1 0.4" +:+ NL +:+ "at 0.0 0.1 -0.1 0.0 0.2" +:+ NL.

(** A file whose only data line has a tab before its first space. *)
Definition tab_line : string := "a" +:+ String TAB "b 1.0" +:+ NL.

Definition tab_example : string := "header" +:+ NL +:+ tab_line.

(** A file whose second row is longer than its first. *)
Definition ragged_example : string := "2 1" +:+ NL +:+ "a 1" +:+ NL +:+ "b 1 2" +:+ NL.

(** A file with nothing but its header. *)
Definition header_only_example : string := "2 5" +:+ NL.

(** ** Concrete collaborators, to run the definitions on examples *)

(** A disk that is a finite map from paths to checkpoints, where writes
    succeed. *)
Definition mem_torch : Torch := {|
  disk := gmap string dict;
  os_path_exists filename d := bool_decide (is_Some (d !! filename));
  torch_load filename _ d :=
    match d !! filename with
    | Some state => Ok state
    | None => Raise (Exn "FileNotFoundError" filename)
    end;
  torch_save obj filename d := (<[filename := obj]> d, Ok tt);
|}.

(** Models and optimizers that are just their state; one registered
    architecture, [fconv]. *)
Definition toy_collaborators : Collaborators := {|
  Model := value;
  Optimizer := value;
  Dictionary := unit;
  model_state_dict m := m;
  model_load_state_dict weights := fun _ => (weights, Ok tt);
  optimizer_state_dict o := o;
  optimizer_load_state_dict o := fun _ => (o, Ok tt);
  models name :=
    if String.eqb name "fconv" then Some (fun _ _ _ => Ok VNone) else None;
|}.

(** Floats kept as the text of their literal. *)
Definition literal_numpy : Numpy := {|
  float64 := string;
  parse_float item := Some item;
|}.

(** ** Reading a trace *)

(** The calls of [torch.save] in a trace, and those that failed. *)
Definition attempts (tr : list event) : nat :=
  length (List.filter (fun ev => match ev with EvSave _ _ _ => true | _ => false end) tr).

Definition failures (tr : list event) : nat :=
  length (List.filter (fun ev => match ev with EvSave _ _ false => true | _ => false end) tr).

(** The records logged, at any level. *)
Definition logged (tr : list event) : list (log_level * exn) :=
  omap (fun ev => match ev with EvLog l e => Some (l, e) | _ => None end) tr.

(** The paths a trace touches, by an existence test, a load or a save. *)
Definition touched (tr : list event) : list string :=
  omap (fun ev =>
          match ev with
          | EvExists p | EvLoad p | EvSave p _ _ => Some p
          | EvLog _ _ => None
          end) tr.

(** ** Example snapshots *)

(** The legacy top-level fields of a version-1 snapshot, and the two fields
    the upgrade adds. *)
Definition legacy_fields : list string :=
  ["optimizer"; "best_loss"; "epoch"; "batch_offset"; "val_loss"].

Definition upgrade_fields : list string :=
  ["optimizer_history"; "extra_state"].

(** A snapshot in the current format. *)
Definition v3_example : dict :=
  <["extra_state" := extra_state_record (VInt 3) (VInt 0) (VBlob 7)]>
    (<["optimizer_history" := VList [optim_entry (VStr "CrossEntropyCriterion") (VBlob 1) (VBlob 2)]]>
      (<["model" := VBlob 0]> (<["args" := VBlob 9]> ∅))).

(** A hand-built version-1 snapshot. *)
Definition v1_example : dict :=
  <["val_loss" := VBlob 6]>
    (<["batch_offset" := VInt 0]>
      (<["epoch" := VInt 4]>
        (<["best_loss" := VBlob 3]>
          (<["optimizer" := VBlob 2]>
            (<["model" := VBlob 1]> ∅))))).

(** A checkpoint whose last history entry was written under criterion [A],
    a disk holding it, and a caller's model, optimizer and scheduler. *)
Definition checkpoint_A : dict :=
  <["extra_state" := extra_state_record (VInt 3) (VInt 0) (VBlob 7)]>
    (<["optimizer_history" := VList [optim_entry (VStr "A") (VBlob 1) (VBlob 2)]]>
      (<["model" := VBlob 0]> (<["args" := VBlob 9]> ∅))).

Definition disk_A : gmap string dict := <["checkpoint.pt" := checkpoint_A]> ∅.

Definition env_A : @env mem_torch toy_collaborators :=
  @Env mem_torch toy_collaborators (@World mem_torch disk_A [])
       (VBlob 100) (VBlob 101) {| best := VBlob 102 |}.

(** Three successive saves of a run. *)
Definition calls_example : list (@save_call toy_collaborators) :=
  [ @SaveCall toy_collaborators (VBlob 9) (VBlob 10) {| class_name := "A" |} (VBlob 11)
      {| best := VBlob 12 |} None;
    @SaveCall toy_collaborators (VBlob 9) (VBlob 20) {| class_name := "A" |} (VBlob 21)
      {| best := VBlob 22 |} None;
    @SaveCall toy_collaborators (VBlob 9) (VBlob 30) {| class_name := "B" |} (VBlob 31)
      {| best := VBlob 32 |} (Some (VDict ∅)) ].

(** Two checkpoints of one architecture on a disk, for an ensemble. *)
Definition checkpoint_1 : dict :=
  <["model" := VBlob 41]> (<["args" := VDict (<["model" := VStr "fconv"]> ∅)]> ∅).

Definition checkpoint_2 : dict :=
  <["model" := VBlob 42]> (<["args" := VDict (<["model" := VStr "fconv"]> ∅)]> ∅).

Definition disk_ensemble : gmap string dict :=
  <["m1.pt" := checkpoint_1]> (<["m2.pt" := checkpoint_2]> ∅).

Definition world_ensemble : @world mem_torch := @World mem_torch disk_ensemble [].

(** ** Computations that leave the world alone *)

(** [m] changes neither the disk nor the trace. *)
Definition keeps_world `{Torch} `{Collaborators} {A} (m : Eff.M env A) : Prop :=
  forall e : env, e_world (fst (m e)) = e_world e.

(** ** Padding *)

(** [tensor.eq(pad).sum()] on a one-dimensional tensor of token ids: the
    number of positions that hold [pad]. *)
Definition count_pad (tensor : list Z) (pad : Z) : nat :=
  length (List.filter (Z.eqb pad) tensor).

(** [lstrip_pad(tensor, pad)]: the slice [tensor[n:]]. *)
Definition lstrip_pad (tensor : list Z) (pad : Z) : list Z :=
  drop (count_pad tensor pad) tensor.

(** [rstrip_pad(tensor, pad)]: the slice [tensor[:-strip]] when [strip > 0],
    the tensor itself otherwise. *)
Definition rstrip_pad (tensor : list Z) (pad : Z) : list Z :=
  let strip := count_pad tensor pad in
  if Nat.ltb 0 strip then take (length tensor - strip) tensor else tensor.

(** ** Vocabulary overlap and splicing *)

(** Modelled from the spec: the vocabulary, whose class is not in this file:
    an ordered sequence of tokens, [len(vocab)] being its size and
    [vocab[idx]] the token at index [idx] (the unknown word past the end). *)
Record Vocabulary : Type := { symbols : list string; unk_word : string }.

Definition vocab_len (vocab : Vocabulary) : nat := length (symbols vocab).

Definition vocab_getitem (vocab : Vocabulary) (idx : nat) : string :=
  default (unk_word vocab) (symbols vocab !! idx).

(** [len(embed_keys & vocab_keys)] in [print_embed_overlap]. *)
Definition embed_overlap {V} (embed_dict : table V) (vocab_dict : Vocabulary) : nat :=
  let embed_keys : gset string := list_to_set (map fst embed_dict) in
  let vocab_keys : gset string := list_to_set (symbols vocab_dict) in
  size (embed_keys ∩ vocab_keys).

(** [print_embed_overlap(embed_dict, vocab_dict)]: the store is standard
    output, the line printed being the pair of the two numbers it shows. *)
Definition print_embed_overlap {V} (embed_dict : table V) (vocab_dict : Vocabulary)
  : Eff.M (list (nat * nat)) unit :=
  Eff.modify (fun out => out ++ [(embed_overlap embed_dict vocab_dict, vocab_len vocab_dict)]).

(** [weight[idx] = torch.tensor(v)] on the rows of an embedding matrix: the
    index must be in range; the items of [v], converted to the type of the
    matrix by [cast], are copied when [v] has the length of the row, its one
    item is broadcast when it has length one, and it is refused otherwise. *)
Definition assign_row {F G} (cast : F -> G) (idx : nat) (v : list F)
    (weight : list (list G)) : result (list (list G)) :=
  match weight !! idx with
  | None => Raise (IndexError "index out of bounds for dimension 0")
  | Some row =>
      if Nat.eqb (length v) (length row) then Ok (<[idx := map cast v]> weight)
      else
        match v with
        | [x] => Ok (<[idx := replicate (length row) (cast x)]> weight)
        | _ => Raise (Exn "RuntimeError" "the expanded size of the tensor must match")
        end
  end.

(** The loop of [load_embedding] over the remaining values of [idx]. *)
Fixpoint load_embedding_loop {F G} (cast : F -> G) (embed_dict : table (list F))
    (vocab : Vocabulary) (range : list nat) (weight : list (list G))
  : result (list (list G)) :=
  match range with
  | [] => Ok weight
  | idx :: range' =>
      let token := vocab_getitem vocab idx in
      match dict_get token embed_dict with
      | Some v =>
          match assign_row cast idx v weight with
          | Ok weight' => load_embedding_loop cast embed_dict vocab range' weight'
          | Raise e => Raise e
          end
      | None => load_embedding_loop cast embed_dict vocab range' weight
      end
  end.

(** [load_embedding(embed_dict, vocab, embedding)], on the rows of
    [embedding.weight.data]; the embedding returned is the one received. *)
Definition load_embedding {F G} (cast : F -> G) (embed_dict : table (list F))
    (vocab : Vocabulary) (weight : list (list G)) : result (list (list G)) :=
  load_embedding_loop cast embed_dict vocab (seq 0 (vocab_len vocab)) weight.

(** ** Samples *)

(** What [make_variable] needs of torch: whether CUDA is there, the move of a
    tensor to a device and the [Variable] wrapper. *)
Class Tensors : Type := {
  cuda_is_available : bool;
  tensor_cuda : Z -> value -> value;
  Variable_ : value -> bool -> value;
}.

(** The inner function [make_variable] of [prepare_sample]. *)
Definition make_variable `{Tensors} (volatile : bool) (cuda_device : option Z)
    (tensor : value) : value :=
  let tensor :=
    match cuda_device with
    | Some device => if cuda_is_available then tensor_cuda device tensor else tensor
    | None => tensor
    end in
  Variable_ tensor volatile.

(** The dict comprehension [{key: make_variable(sample[key]) for key in keys}]. *)
Fixpoint net_input `{Tensors} (volatile : bool) (cuda_device : option Z) (sample : dict)
    (keys : list string) (acc : dict) : result dict :=
  match keys with
  | [] => Ok acc
  | key :: keys' =>
      match lookup_key sample key with
      | Raise e => Raise e
      | Ok tensor =>
          net_input volatile cuda_device sample keys'
            (<[key := make_variable volatile cuda_device tensor]> acc)
      end
  end.

Definition net_input_keys : list string :=
  ["src_tokens"; "src_positions"; "input_tokens"; "input_positions"].

(** [prepare_sample(sample, volatile, cuda_device)] *)
Definition prepare_sample `{Tensors} (sample : dict) (volatile : bool)
    (cuda_device : option Z) : result dict :=
  match lookup_key sample "id" with
  | Raise e => Raise e
  | Ok id =>
      match lookup_key sample "ntokens" with
      | Raise e => Raise e
      | Ok ntokens =>
          match lookup_key sample "target" with
          | Raise e => Raise e
          | Ok target =>
              match net_input volatile cuda_device sample net_input_keys ∅ with
              | Raise e => Raise e
              | Ok inputs =>
                  Ok (<["net_input" := VDict inputs]>
                        (<["target" := make_variable volatile cuda_device target]>
                           (<["ntokens" := ntokens]> (<["id" := id]> ∅))))
              end
          end
      end
  end.

(** Tensors that stay where they are, wrapped with a tag. *)
Definition cpu_tensors : Tensors := {|
  cuda_is_available := false;
  tensor_cuda _ tensor := VList [VStr "cuda"; tensor];
  Variable_ tensor _ := VList [VStr "Variable"; tensor];
|}.

(** ** Further examples *)

(** A caller's model, optimizer and scheduler in front of a disk that holds
    one checkpoint. *)
Definition env_with (filename : string) (checkpoint : dict)
  : @env mem_torch toy_collaborators :=
  @Env mem_torch toy_collaborators
       (@World mem_torch (<[filename := checkpoint]> ∅) [])
       (VBlob 100) (VBlob 101) {| best := VBlob 102 |}.

(** A checkpoint whose history is empty, and one without extra state. *)
Definition checkpoint_no_history : dict :=
  <["extra_state" := VDict ∅]>
    (<["optimizer_history" := VList []]> (<["model" := VBlob 0]> ∅)).

Definition checkpoint_no_extra : dict :=
  <["optimizer_history" := VList [optim_entry (VStr "A") (VBlob 1) (VBlob 2)]]>
    (<["model" := VBlob 0]> ∅).

(** The snapshot of a first save. *)
Definition snapshot_example : dict :=
  @save_state_dict toy_collaborators (VBlob 9) (VBlob 10) {| class_name := "A" |}
                   (VBlob 11) {| best := VBlob 12 |} None None.

(** The keys [prepare_sample] reads, in the order it reads them. *)
Definition sample_keys : list string := ["id"; "ntokens"; "target"] ++ net_input_keys.

(** A file that ends with a blank line. *)
Definition blank_line_example : string := "2 1" +:+ NL +:+ "a 1" +:+ NL +:+ NL.

(** The vocabulary and the matrix of a small splice. *)
Definition vocab_example : Vocabulary :=
  {| symbols := ["the"; "cat"; "at"]; unk_word := "<unk>" |}.

Definition weight_example : list (list string) :=
  [["r0"; "r0"]; ["r1"; "r1"]; ["r2"; "r2"]].

Definition table_example : table (list string) :=
  [("the", ["1"; "2"]); ("at", ["3"; "4"])].

(** A sample with the seven fields and one more. *)
Definition sample_example : dict :=
  <["id" := VInt 1]>
    (<["ntokens" := VInt 9]>
      (<["target" := VBlob 2]>
        (<["src_tokens" := VBlob 3]>
          (<["src_positions" := VBlob 4]>
            (<["input_tokens" := VBlob 5]>
              (<["input_positions" := VBlob 6]>
                (<["other" := VBlob 7]> ∅))))))).

(** * Properties *)

(** ** The store monad *)

Lemma bind_ok {S A B} (m : Eff.M S A) (k : A -> Eff.M S B) s s' a :
  m s = (s', Ok a) -> Eff.bind m k s = k a s'.
Proof. intros E. unfold Eff.bind. now rewrite E. Qed.

Lemma bind_raise {S A B} (m : Eff.M S A) (k : A -> Eff.M S B) s s' e :
  m s = (s', Raise e) -> Eff.bind m k s = (s', Raise e).
Proof. intros E. unfold Eff.bind. now rewrite E. Qed.

Lemma bind_ext {S A B} (m : Eff.M S A) (k k' : A -> Eff.M S B) s :
  (forall a s', k a s' = k' a s') -> Eff.bind m k s = Eff.bind m k' s.
Proof.
  intros E. unfold Eff.bind. destruct (m s) as [s' [a|e]]; [apply E|reflexivity].
Qed.

(** One step of a computation whose first action succeeds. *)
Ltac step_ok tac := etransitivity; [eapply bind_ok; tac|].

(** Projections of an explicit environment or world. *)
Ltac env_simpl :=
  cbn [e_world e_model e_optimizer e_lr_scheduler w_disk w_trace].

(** ** Format upgrade *)

Lemma contains_spec k (s : dict) :
  contains k s = (s, Ok (bool_decide (is_Some (s !! k)))).
Proof. reflexivity. Qed.

Lemma is_Some_true {A} (o : option A) : is_Some o -> bool_decide (is_Some o) = true.
Proof. intros H. now apply bool_decide_eq_true_2. Qed.

Lemma is_None_false {A} (o : option A) : o = None -> bool_decide (is_Some o) = false.
Proof. intros ->. apply bool_decide_eq_false_2. intros [x Hx]. discriminate. Qed.

Lemma getitem_ok k v (s : dict) : s !! k = Some v -> getitem k s = (s, Ok v).
Proof. intros E. unfold getitem. now rewrite E. Qed.

Lemma setitem_ok k v (s : dict) : setitem k v s = (<[k:=v]> s, Ok tt).
Proof. reflexivity. Qed.

Lemma delitem_ok k v (s : dict) : s !! k = Some v -> delitem k s = (delete k s, Ok tt).
Proof. intros E. unfold delitem. now rewrite E. Qed.

(** Lookups through the inserts and deletes of other keys. *)
Ltac lookup_solve :=
  repeat first [ rewrite lookup_delete_ne by discriminate
               | rewrite lookup_insert_ne by discriminate ];
  first [ eassumption | apply lookup_insert_eq | apply lookup_delete_eq ].

Ltac upgrade_unfold :=
  unfold _upgrade_state_dict, upgrade_optimizer_history, upgrade_extra_state,
    Eff.bind, Eff.ret, contains, getitem, setitem, delitem.

(** A dict that has a history is left alone by the first block. *)
Lemma upgrade_optimizer_history_skip (s : dict) :
  is_Some (s !! "optimizer_history") -> upgrade_optimizer_history s = (s, Ok tt).
Proof.
  intros H. unfold upgrade_optimizer_history, Eff.bind, contains.
  now rewrite (is_Some_true _ H).
Qed.

(** The first block either fails before any mutation or leaves a history. *)
Lemma upgrade_optimizer_history_post (s s1 : dict) r :
  upgrade_optimizer_history s = (s1, r) ->
  match r with
  | Ok _ => is_Some (s1 !! "optimizer_history")
  | Raise _ => s1 = s
  end.
Proof.
  upgrade_unfold. case_bool_decide as Hh; simpl.
  - intros [= <- <-]. exact Hh.
  - destruct (s !! "optimizer") as [o|] eqn:Ho; [|intros [= <- <-]; reflexivity].
    destruct (s !! "best_loss") as [b|] eqn:Hb; [|intros [= <- <-]; reflexivity].
    rewrite lookup_insert_ne, Ho by discriminate.
    rewrite lookup_delete_ne, lookup_insert_ne, Hb by discriminate.
    intros [= <- <-]. rewrite !lookup_delete_ne, lookup_insert_eq by discriminate. eauto.
Qed.

(** The second block never removes the history. *)
Lemma upgrade_extra_state_history (s s2 : dict) r :
  upgrade_extra_state s = (s2, r) ->
  is_Some (s !! "optimizer_history") -> is_Some (s2 !! "optimizer_history").
Proof.
  upgrade_unfold. intros E Hh. revert E.
  case_bool_decide as He; case_bool_decide as Hx; simpl; try (intros [= <- <-]; exact Hh).
  destruct (s !! "epoch") as [ep|] eqn:Hep; [|intros [= <- <-]; exact Hh].
  destruct (s !! "batch_offset") as [bo|] eqn:Hbo; [|intros [= <- <-]; exact Hh].
  destruct (s !! "val_loss") as [vl|] eqn:Hvl; [|intros [= <- <-]; exact Hh].
  rewrite lookup_insert_ne, Hep by discriminate.
  rewrite lookup_delete_ne, lookup_insert_ne, Hbo by discriminate.
  rewrite !lookup_delete_ne, lookup_insert_ne, Hvl by discriminate.
  intros [= <- <-]. now rewrite !lookup_delete_ne, lookup_insert_ne by discriminate.
Qed.

(** Running the second block again on the dict it left reproduces its
    outcome and changes nothing. *)
Lemma upgrade_extra_state_again (s s2 : dict) r :
  upgrade_extra_state s = (s2, r) -> upgrade_extra_state s2 = (s2, r).
Proof.
  intros E. generalize E. upgrade_unfold.
  case_bool_decide as He; case_bool_decide as Hx; simpl;
    try (intros [= <- <-]; exact E).
  destruct (s !! "epoch") as [ep|] eqn:Hep; [|intros [= <- <-]; exact E].
  destruct (s !! "batch_offset") as [bo|] eqn:Hbo; [|intros [= <- <-]; exact E].
  destruct (s !! "val_loss") as [vl|] eqn:Hvl; [|intros [= <- <-]; exact E].
  rewrite lookup_insert_ne, Hep by discriminate.
  rewrite lookup_delete_ne, lookup_insert_ne, Hbo by discriminate.
  rewrite !lookup_delete_ne, lookup_insert_ne, Hvl by discriminate.
  intros [= <- <-].
  rewrite (is_None_false (_ !! "epoch")); [reflexivity|].
  now rewrite !lookup_delete_ne, lookup_delete_eq by discriminate.
Qed.

(** C1. Idempotence of the format upgrade: for every snapshot dict, running
    [_upgrade_state_dict] on the dict a first run left behind leaves that dict
    as it is and ends the same way (returning it, or raising the same
    [KeyError]); in particular a dict that has both [optimizer_history] and
    [extra_state] is returned unchanged. *)
Theorem upgrade_state_dict_idempotent (s : dict) :
  _upgrade_state_dict (fst (_upgrade_state_dict s)) = _upgrade_state_dict s
  /\ (is_Some (s !! "optimizer_history") -> is_Some (s !! "extra_state") ->
      _upgrade_state_dict s = (s, Ok tt)).
Proof.
  split.
  - destruct (_upgrade_state_dict s) as [s1 r] eqn:E. simpl. revert E.
    unfold _upgrade_state_dict at 1. unfold Eff.bind at 1.
    destruct (upgrade_optimizer_history s) as [sa [[]|e]] eqn:E1.
    + intros E2.
      pose proof (upgrade_optimizer_history_post _ _ _ E1) as Hh. simpl in Hh.
      pose proof (upgrade_extra_state_history _ _ _ E2 Hh) as Hh'.
      unfold _upgrade_state_dict.
      rewrite (bind_ok _ _ _ _ _ (upgrade_optimizer_history_skip _ Hh')).
      exact (upgrade_extra_state_again _ _ _ E2).
    + intros [= <- <-].
      pose proof (upgrade_optimizer_history_post _ _ _ E1) as Hs. simpl in Hs. subst sa.
      unfold _upgrade_state_dict. now rewrite (bind_raise _ _ _ _ _ E1).
  - intros Hh Hx. unfold _upgrade_state_dict.
    rewrite (bind_ok _ _ _ _ _ (upgrade_optimizer_history_skip _ Hh)).
    unfold upgrade_extra_state, Eff.bind, contains, Eff.ret.
    rewrite (is_Some_true _ Hx). now rewrite andb_false_r.
Qed.

Lemma upgrade_state_dict_idempotent_witness :
  _upgrade_state_dict (fst (_upgrade_state_dict v3_example)) = _upgrade_state_dict v3_example
  /\ _upgrade_state_dict v3_example = (v3_example, Ok tt).
Proof.
  destruct (upgrade_state_dict_idempotent v3_example) as [H1 H2].
  split; [exact H1|].
  apply H2; unfold v3_example.
  - rewrite lookup_insert_ne, lookup_insert_eq by discriminate. eauto.
  - rewrite lookup_insert_eq. eauto.
Defined.

(** C2. A version-1 snapshot (fields [model], [optimizer], [best_loss],
    [epoch], [batch_offset], [val_loss]; neither [optimizer_history] nor
    [extra_state]) is upgraded without error to a dict whose history is the
    single entry (CrossEntropyCriterion, legacy optimizer, legacy best_loss),
    whose [extra_state] is the record of the legacy epoch, batch_offset and
    val_loss, in which none of the five legacy fields remains, and whose other
    fields ([model] among them) are as before. *)
Theorem upgrade_state_dict_v1 (s : dict) (m o bl ep bo vl : value) :
  s !! "model" = Some m ->
  s !! "optimizer" = Some o ->
  s !! "best_loss" = Some bl ->
  s !! "epoch" = Some ep ->
  s !! "batch_offset" = Some bo ->
  s !! "val_loss" = Some vl ->
  s !! "optimizer_history" = None ->
  s !! "extra_state" = None ->
  exists s' : dict,
    _upgrade_state_dict s = (s', Ok tt)
    /\ s' !! "optimizer_history"
       = Some (VList [VDict (<["best_loss" := bl]>
                             (<["optimizer" := o]>
                               (<["criterion_name" := VStr "CrossEntropyCriterion"]> ∅)))])
    /\ s' !! "extra_state"
       = Some (VDict (<["val_loss" := vl]>
                       (<["batch_offset" := bo]> (<["epoch" := ep]> ∅))))
    /\ (forall k, In k legacy_fields -> s' !! k = None)
    /\ s' !! "model" = Some m
    /\ (forall k, ~ In k legacy_fields -> ~ In k upgrade_fields -> s' !! k = s !! k).
Proof.
  intros Hm Ho Hbl Hep Hbo Hvl Hh Hx.
  eexists. split.
  - unfold _upgrade_state_dict. erewrite bind_ok; cycle 1.
    { unfold upgrade_optimizer_history.
      rewrite (bind_ok _ _ _ _ _ (contains_spec _ _)), (is_None_false _ Hh). simpl.
      do 2 (erewrite bind_ok by (apply getitem_ok; lookup_solve)).
      rewrite (bind_ok _ _ _ _ _ (setitem_ok _ _ _)).
      erewrite bind_ok by (eapply delitem_ok; lookup_solve).
      eapply delitem_ok; lookup_solve. }
    unfold upgrade_extra_state.
    rewrite (bind_ok _ _ _ _ _ (contains_spec _ _)).
    rewrite (is_Some_true (_ !! "epoch")) by (eexists; lookup_solve).
    rewrite (bind_ok _ _ _ _ _ (contains_spec _ _)).
    rewrite (is_None_false (_ !! "extra_state")) by lookup_solve. simpl.
    do 3 (erewrite bind_ok by (apply getitem_ok; lookup_solve)).
    rewrite (bind_ok _ _ _ _ _ (setitem_ok _ _ _)).
    do 2 (erewrite bind_ok by (eapply delitem_ok; lookup_solve)).
    eapply delitem_ok; lookup_solve.
  - repeat split.
    + lookup_solve.
    + lookup_solve.
    + intros k Hk. unfold legacy_fields in Hk. simpl in Hk.
      destruct Hk as [<-|[<-|[<-|[<-|[<-|[]]]]]]; lookup_solve.
    + lookup_solve.
    + intros k Hl Hu. unfold legacy_fields, upgrade_fields in *. simpl in *.
      rewrite !lookup_delete_ne, lookup_insert_ne, !lookup_delete_ne, lookup_insert_ne
        by (intros <-; tauto).
      reflexivity.
Qed.

Lemma upgrade_state_dict_v1_witness :
  exists s' : dict,
    _upgrade_state_dict v1_example = (s', Ok tt)
    /\ s' !! "optimizer_history"
       = Some (VList [VDict (<["best_loss" := VBlob 3]>
                             (<["optimizer" := VBlob 2]>
                               (<["criterion_name" := VStr "CrossEntropyCriterion"]> ∅)))])
    /\ s' !! "extra_state"
       = Some (VDict (<["val_loss" := VBlob 6]>
                       (<["batch_offset" := VInt 0]> (<["epoch" := VInt 4]> ∅))))
    /\ (forall k, In k legacy_fields -> s' !! k = None)
    /\ s' !! "model" = Some (VBlob 1)
    /\ (forall k, ~ In k legacy_fields -> ~ In k upgrade_fields -> s' !! k = v1_example !! k).
Proof.
  apply (upgrade_state_dict_v1 v1_example); reflexivity.
Defined.

(** ** Saving *)

Section Saving.
Context `{Torch}.

Lemma save_spec (obj : dict) (filename : string) (w : world) :
  save obj filename w
  = (World (fst (torch_save obj filename (w_disk w)))
           (w_trace w ++ [EvSave filename obj
                            (match snd (torch_save obj filename (w_disk w)) with
                             | Ok _ => true
                             | Raise _ => false
                             end)]),
     snd (torch_save obj filename (w_disk w))).
Proof. unfold save. now destruct (torch_save obj filename (w_disk w)). Qed.

(** One round of the loop, when the write succeeds. *)
Lemma persistent_save_loop_ok i range obj filename (w : world) d :
  torch_save obj filename (w_disk w) = (d, Ok tt) ->
  persistent_save_loop (i :: range) obj filename w
  = (World d (w_trace w ++ [EvSave filename obj true]), Ok tt).
Proof.
  intros E. simpl. unfold try_except. now rewrite save_spec, E.
Qed.

(** One round of the loop, when the write fails. *)
Lemma persistent_save_loop_raise i range obj filename (w : world) d e :
  torch_save obj filename (w_disk w) = (d, Raise e) ->
  persistent_save_loop (i :: range) obj filename w
  = persistent_save_loop range obj filename
      (World d (w_trace w ++ [EvSave filename obj false]
                           ++ (if Nat.eqb i 2 then [EvLog ERROR e] else []))).
Proof.
  intros E. simpl. unfold try_except. rewrite save_spec, E. simpl.
  unfold Eff.bind, logging_error, emit, Eff.modify, Eff.ret.
  destruct (Nat.eqb i 2); simpl; rewrite <- ?app_assoc, ?app_nil_r; reflexivity.
Qed.

(** C4. [torch_persistent_save] returns normally whatever [torch.save]
    does: it calls [torch.save] once, twice or three times, stopping at the
    first success, and logs one error exactly when the three calls all
    failed, after the third. *)
Theorem torch_persistent_save_never_raises (obj : dict) (filename : string) (w : world) :
  exists (w' : world) (new : list event),
    torch_persistent_save obj filename w = (w', Ok tt)
    /\ w_trace w' = w_trace w ++ new
    /\ (new = [EvSave filename obj true]
        \/ new = [EvSave filename obj false; EvSave filename obj true]
        \/ new = [EvSave filename obj false; EvSave filename obj false;
                  EvSave filename obj true]
        \/ exists e, new = [EvSave filename obj false; EvSave filename obj false;
                            EvSave filename obj false; EvLog ERROR e])
    /\ 1 <= attempts new <= 3
    /\ (failures new = 3 /\ (exists e, logged new = [(ERROR, e)])
        \/ failures new < 3 /\ logged new = []).
Proof.
  unfold torch_persistent_save. simpl seq.
  destruct (torch_save obj filename (w_disk w)) as [d1 [[]|e1]] eqn:E1.
  { rewrite (persistent_save_loop_ok _ _ _ _ _ _ E1).
    eexists _, _. split; [reflexivity|]. split; [reflexivity|].
    split; [now left|]. cbn. split; [lia|]. right. split; [lia|reflexivity]. }
  rewrite (persistent_save_loop_raise _ _ _ _ _ _ _ E1). cbn [Nat.eqb app].
  destruct (torch_save obj filename d1) as [d2 [[]|e2]] eqn:E2.
  { rewrite (persistent_save_loop_ok 1 [2] obj filename (World d1 _) d2 E2).
    eexists _, _. split; [reflexivity|]. simpl. rewrite <- app_assoc.
    split; [reflexivity|].
    split; [right; now left|]. cbn. split; [lia|]. right. split; [lia|reflexivity]. }
  rewrite (persistent_save_loop_raise 1 [2] obj filename (World d1 _) d2 e2 E2).
  cbn [Nat.eqb app].
  destruct (torch_save obj filename d2) as [d3 [[]|e3]] eqn:E3.
  { rewrite (persistent_save_loop_ok 2 [] obj filename (World d2 _) d3 E3).
    eexists _, _. split; [reflexivity|]. simpl. rewrite <- !app_assoc.
    split; [reflexivity|].
    split; [right; right; now left|]. cbn. split; [lia|]. right.
    split; [lia|reflexivity]. }
  rewrite (persistent_save_loop_raise 2 [] obj filename (World d2 _) d3 e3 E3).
  cbn [Nat.eqb app persistent_save_loop Eff.ret].
  eexists _, _. split; [reflexivity|]. simpl. rewrite <- !app_assoc.
  split; [reflexivity|].
  split; [right; right; right; now exists e3|]. cbn. split; [lia|]. left.
  split; [reflexivity|now exists e3].
Qed.

End Saving.

Section History.
Context `{Collaborators}.

Lemma save_state_dict_history args model criterion optimizer lr_scheduler h x :
  save_state_dict args model criterion optimizer lr_scheduler h x !! "optimizer_history"
  = Some (VList (default [] h ++
                 [optim_entry (VStr (class_name criterion))
                              (optimizer_state_dict optimizer) (best lr_scheduler)])).
Proof.
  unfold save_state_dict. now rewrite lookup_insert_ne, lookup_insert_eq by discriminate.
Qed.

(** The snapshot of the call at index [n] carries the incoming history
    followed by the entries of the calls up to [n], in order. *)
Lemma successive_snapshots_lookup (calls : list save_call) :
  forall (h0 : option (list value)) (n : nat) (c : save_call),
    calls !! n = Some c ->
    exists snapshot : dict,
      successive_snapshots calls h0 !! n = Some snapshot
      /\ snapshot !! "optimizer_history"
         = Some (VList (default [] h0 ++ map entry_of (take (S n) calls))).
Proof.
  induction calls as [|c0 calls IH]; intros h0 n c Hn; [discriminate|].
  destruct n as [|n]; simpl in Hn.
  - injection Hn as ->. eexists. split; [reflexivity|].
    rewrite save_state_dict_history. destruct calls; reflexivity.
  - destruct (IH (history_of
                    (save_state_dict (sc_args c0) (sc_model c0) (sc_criterion c0)
                       (sc_optimizer c0) (sc_lr_scheduler c0) h0 (sc_extra_state c0)))
                 n c Hn) as (snapshot & Hs & Hh).
    exists snapshot. split; [exact Hs|].
    rewrite Hh. unfold history_of. rewrite save_state_dict_history. simpl default.
    rewrite <- app_assoc. reflexivity.
Qed.

Lemma successive_snapshots_length (calls : list save_call) :
  forall h0, length (successive_snapshots calls h0) = length calls.
Proof.
  induction calls as [|c0 calls IH]; intros h0; simpl; [reflexivity|]. now rewrite IH.
Qed.

(** The snapshot built for the call at index [n] has a history of length
    [n + 1]: the entries of the calls up to it, in call order, the last being
    the entry of that call. *)
Lemma successive_snapshots_history (calls : list save_call) :
  length (successive_snapshots calls None) = length calls
  /\ forall (n : nat) (c : save_call),
       calls !! n = Some c ->
       exists snapshot : dict,
         successive_snapshots calls None !! n = Some snapshot
         /\ snapshot !! "optimizer_history"
            = Some (VList (map entry_of (take (S n) calls)))
         /\ length (map entry_of (take (S n) calls)) = S n
         /\ map entry_of (take (S n) calls)
            = map entry_of (take n calls)
              ++ [optim_entry (VStr (class_name (sc_criterion c)))
                              (optimizer_state_dict (sc_optimizer c))
                              (best (sc_lr_scheduler c))].
Proof.
  split; [apply successive_snapshots_length|].
  intros n c Hn.
  destruct (successive_snapshots_lookup calls None n c Hn) as (snapshot & Hs & Hh).
  exists snapshot. split; [exact Hs|]. split; [exact Hh|]. split.
  - rewrite length_map, length_take. apply lookup_lt_Some in Hn. lia.
  - rewrite (take_S_r _ _ _ Hn), map_app. reflexivity.
Qed.

End History.

Lemma submitted_app (tr1 tr2 : list event) :
  submitted (tr1 ++ tr2) = submitted tr1 ++ submitted tr2.
Proof. unfold submitted. apply omap_app. Qed.

Lemma last_app_replicate {A} (l : list A) (k : nat) (x : A) :
  1 <= k -> last (l ++ replicate k x) = Some x.
Proof.
  destruct k as [|k]; [lia|]. intros _.
  rewrite replicate_S_end, app_assoc. apply last_snoc.
Qed.

Section SuccessiveSaves.
Context `{Torch} `{Collaborators}.

(** What [torch_persistent_save] leaves in the trace: one to three attempts,
    all of them for the same object and the same file. *)
Lemma torch_persistent_save_submits (obj : dict) (filename : string) (w : world) :
  exists (w' : world) (new : list event) (k : nat),
    torch_persistent_save obj filename w = (w', Ok tt)
    /\ w_trace w' = w_trace w ++ new
    /\ 1 <= k <= 3
    /\ submitted new = replicate k obj
    /\ touched new = replicate k filename.
Proof.
  unfold torch_persistent_save. simpl seq.
  destruct (torch_save obj filename (w_disk w)) as [d1 [[]|e1]] eqn:E1.
  { rewrite (persistent_save_loop_ok _ _ _ _ _ _ E1).
    eexists _, _, 1. split; [reflexivity|]. split; [reflexivity|].
    split; [lia|]. split; reflexivity. }
  rewrite (persistent_save_loop_raise _ _ _ _ _ _ _ E1). cbn [Nat.eqb app].
  destruct (torch_save obj filename d1) as [d2 [[]|e2]] eqn:E2.
  { rewrite (persistent_save_loop_ok 1 [2] obj filename (World d1 _) d2 E2).
    eexists _, _, 2. split; [reflexivity|]. simpl. rewrite <- app_assoc.
    split; [reflexivity|]. split; [lia|]. split; reflexivity. }
  rewrite (persistent_save_loop_raise 1 [2] obj filename (World d1 _) d2 e2 E2).
  cbn [Nat.eqb app].
  destruct (torch_save obj filename d2) as [d3 [[]|e3]] eqn:E3.
  { rewrite (persistent_save_loop_ok 2 [] obj filename (World d2 _) d3 E3).
    eexists _, _, 3. split; [reflexivity|]. simpl. rewrite <- !app_assoc.
    split; [reflexivity|]. split; [lia|]. split; reflexivity. }
  rewrite (persistent_save_loop_raise 2 [] obj filename (World d2 _) d3 e3 E3).
  cbn [Nat.eqb app persistent_save_loop Eff.ret].
  eexists _, _, 3. split; [reflexivity|]. simpl. rewrite <- !app_assoc.
  split; [reflexivity|]. split; [lia|]. split; reflexivity.
Qed.

(** The run of successive saves from any incoming history: each call hands
    its snapshot to [torch.save] one to three times. *)
Lemma successive_saves_run (filename : string) (calls : list save_call) :
  forall (h0 : option (list value)) (w : world),
    exists (w' : world) (new : list event) (attempts : list nat),
      successive_saves filename calls h0 w = (w', Ok tt)
      /\ w_trace w' = w_trace w ++ new
      /\ length attempts = length calls
      /\ Forall (fun k => 1 <= k <= 3) attempts
      /\ submitted new
         = concat (zip_with replicate attempts (successive_snapshots calls h0))
      /\ touched new = replicate (sum_list attempts) filename.
Proof.
  induction calls as [|c calls IH]; intros h0 w.
  - exists w, [], []. split; [reflexivity|]. split; [now rewrite app_nil_r|].
    repeat split. constructor.
  - cbn [successive_saves successive_snapshots].
    set (snapshot := save_state_dict (sc_args c) (sc_model c) (sc_criterion c)
                       (sc_optimizer c) (sc_lr_scheduler c) h0 (sc_extra_state c)).
    destruct (torch_persistent_save_submits snapshot filename w)
      as (w1 & new1 & k & Hrun & Htr & Hk & Hsub & Htouch).
    assert (Hlast : last_submitted_history w1 = history_of snapshot).
    { unfold last_submitted_history. rewrite Htr, submitted_app, Hsub.
      now rewrite (last_app_replicate _ k snapshot) by lia. }
    destruct (IH (history_of snapshot) w1)
      as (w' & new' & attempts & Hrun' & Htr' & Hlen & Hall & Hsub' & Htouch').
    exists w', (new1 ++ new'), (k :: attempts).
    split.
    { unfold save_state. fold snapshot. rewrite (bind_ok _ _ _ _ _ Hrun).
      unfold Eff.bind at 1, Eff.get. rewrite Hlast. exact Hrun'. }
    split; [now rewrite Htr', Htr, app_assoc|].
    split; [simpl; now rewrite Hlen|].
    split; [now constructor|].
    split.
    + rewrite submitted_app, Hsub, Hsub'. reflexivity.
    + unfold touched in *. rewrite omap_app, Htouch, Htouch'. simpl sum_list.
      now rewrite replicate_add.
Qed.

(** C5. N successive [save_state] calls on one file, the first given the
    default history and each later one the history of the snapshot the call
    before it handed to [torch.save], return normally whatever the writes
    do.  Every call hands one snapshot to [torch.save] (once, or again up to
    three times when the write fails), for that file and no other, so that
    the trace shows the N snapshots in call order; and the snapshot of the
    N-th call has a history of exactly length N: the entries (criterion type
    name, exported optimizer state, best loss) of the first N calls in call
    order, that is the history of the call before, unchanged, with the entry
    of this call appended. *)
Theorem save_state_history_append_only (filename : string) (calls : list save_call)
    (w : world) :
  exists (w' : world) (new : list event) (attempts : list nat),
    successive_saves filename calls None w = (w', Ok tt)
    /\ w_trace w' = w_trace w ++ new
    /\ length attempts = length calls
    /\ Forall (fun k => 1 <= k <= 3) attempts
    /\ submitted new
       = concat (zip_with replicate attempts (successive_snapshots calls None))
    /\ touched new = replicate (sum_list attempts) filename
    /\ length (successive_snapshots calls None) = length calls
    /\ forall (n : nat) (c : save_call),
         calls !! n = Some c ->
         exists snapshot : dict,
           successive_snapshots calls None !! n = Some snapshot
           /\ snapshot !! "optimizer_history"
              = Some (VList (map entry_of (take (S n) calls)))
           /\ length (map entry_of (take (S n) calls)) = S n
           /\ map entry_of (take (S n) calls)
              = map entry_of (take n calls)
                ++ [optim_entry (VStr (class_name (sc_criterion c)))
                                (optimizer_state_dict (sc_optimizer c))
                                (best (sc_lr_scheduler c))].
Proof.
  destruct (successive_saves_run filename calls None w)
    as (w' & new & attempts & Hrun & Htr & Hlen & Hall & Hsub & Htouch).
  destruct (successive_snapshots_history calls) as [Hcount Hhist].
  exists w', new, attempts.
  split; [exact Hrun|]. split; [exact Htr|]. split; [exact Hlen|].
  split; [exact Hall|]. split; [exact Hsub|]. split; [exact Htouch|].
  split; [exact Hcount|exact Hhist].
Qed.

End SuccessiveSaves.

(** ** Loading *)

Section Loading.
Context `{Torch} `{Collaborators}.

Lemma eq_str_spec (v : value) (name : string) : eq_str v name = true <-> v = VStr name.
Proof.
  destruct v; simpl; try (split; [discriminate|intros [=]]).
  rewrite String.eqb_eq. split; [now intros ->|now intros [= ->]].
Qed.

Lemma on_world_path_exists filename (e : env) :
  on_world (path_exists filename) e
  = (Env (World (w_disk (e_world e)) (w_trace (e_world e) ++ [EvExists filename]))
         (e_model e) (e_optimizer e) (e_lr_scheduler e),
     Ok (os_path_exists filename (w_disk (e_world e)))).
Proof. reflexivity. Qed.

Lemma on_world_load filename loc (e : env) :
  on_world (load filename loc) e
  = (Env (World (w_disk (e_world e)) (w_trace (e_world e) ++ [EvLoad filename]))
         (e_model e) (e_optimizer e) (e_lr_scheduler e),
     torch_load filename loc (w_disk (e_world e))).
Proof. reflexivity. Qed.

(** C6 (amended). When no file exists at [filename], [load_state] returns
    the pair [(None, [])], [None] standing in for the extra state and not an
    empty record, without raising; the model, the optimizer and the scheduler
    are as the caller supplied them, and nothing but the existence test
    touched the disk. *)
Theorem load_state_not_found (filename : string) (criterion : Criterion)
    (cuda_device : option Z) (e : env) :
  os_path_exists filename (w_disk (e_world e)) = false ->
  load_state filename criterion cuda_device e
  = (Env (World (w_disk (e_world e)) (w_trace (e_world e) ++ [EvExists filename]))
         (e_model e) (e_optimizer e) (e_lr_scheduler e),
     Ok (VNone, VList [])).
Proof.
  intros Hex. unfold load_state.
  rewrite (bind_ok _ _ _ _ _ (on_world_path_exists filename e)), Hex. reflexivity.
Qed.

(** The run of [load_state] up to the comparison of criterion names. *)
Lemma load_state_found (filename : string) (criterion : Criterion)
    (cuda_device : option Z) (e : env) (state state' : dict) (weights : value)
    (m' : Model) (history : list value) (entry : dict) (cn extra : value) :
  os_path_exists filename (w_disk (e_world e)) = true ->
  torch_load filename (restore_location cuda_device) (w_disk (e_world e)) = Ok state ->
  _upgrade_state_dict state = (state', Ok tt) ->
  state' !! "model" = Some weights ->
  model_load_state_dict weights (e_model e) = (m', Ok tt) ->
  state' !! "optimizer_history" = Some (VList history) ->
  last history = Some (VDict entry) ->
  entry !! "criterion_name" = Some cn ->
  state' !! "extra_state" = Some extra ->
  load_state filename criterion cuda_device e
  = (let e1 := Env (loaded_world filename (e_world e)) m' (e_optimizer e)
                   (e_lr_scheduler e) in
     Eff.bind
       (if eq_str cn (class_name criterion)
        then
          Eff.bind (Eff.lift (subscript (VDict entry) "optimizer"))
            (fun o =>
               Eff.bind (on_optimizer (optimizer_load_state_dict o))
                 (fun _ =>
                    Eff.bind (Eff.lift (subscript (VDict entry) "best_loss")) set_best))
        else Eff.ret tt)
       (fun _ => Eff.ret (extra, VList history)) e1).
Proof.
  intros Hex Hload Hup Hm Hml Hh Hlast Hcn Hx. unfold load_state.
  step_ok ltac:(apply on_world_path_exists). rewrite Hex. simpl negb. cbv iota.
  step_ok ltac:(rewrite on_world_load; env_simpl; rewrite Hload; reflexivity).
  step_ok ltac:(unfold Eff.lift, upgraded; rewrite Hup; reflexivity).
  step_ok ltac:(unfold Eff.lift, lookup_key; rewrite Hm; reflexivity).
  step_ok ltac:(unfold on_model, zoom; env_simpl; rewrite Hml; reflexivity).
  step_ok ltac:(unfold Eff.lift, lookup_key; rewrite Hh; reflexivity).
  step_ok ltac:(unfold Eff.lift, index_last; rewrite Hlast; reflexivity).
  step_ok ltac:(unfold Eff.lift, subscript, lookup_key; rewrite Hcn; reflexivity).
  env_simpl. unfold loaded_world. rewrite <- app_assoc. cbn [app].
  apply bind_ext. intros [] e2.
  unfold Eff.bind, Eff.lift, lookup_key. rewrite Hx. reflexivity.
Qed.

(** C3 (amended). On load of an existing snapshot, the optimizer state and
    the scheduler's best loss are restored from the last history entry when
    that entry's criterion name equals the current criterion's type name,
    and are left as the caller supplied them when it does not; either way
    the model weights are loaded, the extra state and the whole history are
    returned, and no record is logged. *)
Theorem load_state_criterion_guard (filename : string) (criterion : Criterion)
    (cuda_device : option Z) (e : env) (state state' : dict) (weights : value)
    (m' : Model) (history : list value) (entry : dict) (cn extra : value) :
  os_path_exists filename (w_disk (e_world e)) = true ->
  torch_load filename (restore_location cuda_device) (w_disk (e_world e)) = Ok state ->
  _upgrade_state_dict state = (state', Ok tt) ->
  state' !! "model" = Some weights ->
  model_load_state_dict weights (e_model e) = (m', Ok tt) ->
  state' !! "optimizer_history" = Some (VList history) ->
  last history = Some (VDict entry) ->
  entry !! "criterion_name" = Some cn ->
  state' !! "extra_state" = Some extra ->
  (cn <> VStr (class_name criterion) ->
   load_state filename criterion cuda_device e
   = (Env (loaded_world filename (e_world e)) m' (e_optimizer e) (e_lr_scheduler e),
      Ok (extra, VList history)))
  /\ (cn = VStr (class_name criterion) ->
      forall (o : value) (opt' : Optimizer) (b : value),
        entry !! "optimizer" = Some o ->
        optimizer_load_state_dict o (e_optimizer e) = (opt', Ok tt) ->
        entry !! "best_loss" = Some b ->
        load_state filename criterion cuda_device e
        = (Env (loaded_world filename (e_world e)) m' opt' {| best := b |},
           Ok (extra, VList history)))
  /\ logged (w_trace (loaded_world filename (e_world e))) = logged (w_trace (e_world e)).
Proof.
  intros Hex Hload Hup Hm Hml Hh Hlast Hcn Hx.
  pose proof (load_state_found filename criterion cuda_device e state state' weights
                m' history entry cn extra Hex Hload Hup Hm Hml Hh Hlast Hcn Hx) as L.
  cbv zeta in L. repeat split.
  - intros Hne. rewrite L.
    destruct (eq_str cn (class_name criterion)) eqn:E;
      [apply eq_str_spec in E; contradiction|reflexivity].
  - intros Heq o opt' b Ho Hol Hb. rewrite L.
    apply eq_str_spec in Heq. rewrite Heq.
    step_ok ltac:(
      step_ok ltac:(unfold Eff.lift, subscript, lookup_key; rewrite Ho; reflexivity);
      step_ok ltac:(unfold on_optimizer, zoom; env_simpl; rewrite Hol; reflexivity);
      step_ok ltac:(unfold Eff.lift, subscript, lookup_key; rewrite Hb; reflexivity);
      reflexivity).
    reflexivity.
  - unfold loaded_world, logged. simpl. rewrite omap_app. simpl. apply app_nil_r.
Qed.

End Loading.

(** *** Witnesses on the in-memory disk *)

Lemma save_state_history_append_only_witness :
  exists (w' : @world mem_torch) (snapshot : dict),
    @successive_saves mem_torch toy_collaborators "checkpoint.pt" calls_example None
      (@World mem_torch ∅ []) = (w', Ok tt)
    /\ length (submitted (w_trace w')) >= 3
    /\ last (submitted (w_trace w')) = Some snapshot
    /\ @successive_snapshots toy_collaborators calls_example None !! 2 = Some snapshot
    /\ snapshot !! "optimizer_history"
       = Some (VList [optim_entry (VStr "A") (VBlob 11) (VBlob 12);
                      optim_entry (VStr "A") (VBlob 21) (VBlob 22);
                      optim_entry (VStr "B") (VBlob 31) (VBlob 32)]).
Proof.
  destruct (@save_state_history_append_only mem_torch toy_collaborators "checkpoint.pt"
              calls_example (@World mem_torch ∅ []))
    as (w' & new & attempts & Hrun & Htr & Hlen & Hall & Hsub & _ & _ & Hhist).
  destruct (Hhist 2 _ eq_refl) as (snapshot & Hs & Hh & _).
  exists w', snapshot. split; [exact Hrun|].
  simpl in Htr. rewrite Htr, Hsub.
  destruct attempts as [|k1 [|k2 [|k3 [|k4 attempts]]]]; try discriminate.
  apply Forall_cons in Hall as [H1 Hall]. apply Forall_cons in Hall as [H2 Hall].
  apply Forall_cons in Hall as [H3 _].
  cbn [successive_snapshots calls_example zip_with concat] in *.
  injection Hs as <-. rewrite app_nil_r.
  split; [|split; [|split; [reflexivity|exact Hh]]].
  - rewrite !length_app, !length_replicate. lia.
  - rewrite app_assoc. apply last_app_replicate. lia.
Defined.

Lemma load_state_not_found_witness :
  @load_state mem_torch toy_collaborators "missing.pt" {| class_name := "A" |} None env_A
  = (@Env mem_torch toy_collaborators (@World mem_torch disk_A [EvExists "missing.pt"])
          (VBlob 100) (VBlob 101) {| best := VBlob 102 |},
     Ok (VNone, VList [])).
Proof.
  apply (@load_state_not_found mem_torch toy_collaborators "missing.pt"
           {| class_name := "A" |} None env_A).
  reflexivity.
Defined.

(** C6, as stated, fails: for a missing file the extra state returned is
    [None], which is not the empty record. *)
Lemma load_state_not_found_returns_None :
  @load_state mem_torch toy_collaborators "missing.pt" {| class_name := "A" |} None env_A
  = (@Env mem_torch toy_collaborators (@World mem_torch disk_A [EvExists "missing.pt"])
          (VBlob 100) (VBlob 101) {| best := VBlob 102 |},
     Ok (VNone, VList []))
  /\ VNone <> VDict ∅.
Proof.
  split; [|discriminate].
  unfold load_state.
  rewrite (bind_ok _ _ _ _ _
             (@on_world_path_exists mem_torch toy_collaborators "missing.pt" env_A)).
  reflexivity.
Qed.

Lemma load_state_criterion_guard_witness :
  @load_state mem_torch toy_collaborators "checkpoint.pt" {| class_name := "B" |} None env_A
  = (@Env mem_torch toy_collaborators
          (@World mem_torch disk_A [EvExists "checkpoint.pt"; EvLoad "checkpoint.pt"])
          (VBlob 0) (VBlob 101) {| best := VBlob 102 |},
     Ok (extra_state_record (VInt 3) (VInt 0) (VBlob 7),
         VList [optim_entry (VStr "A") (VBlob 1) (VBlob 2)]))
  /\ @load_state mem_torch toy_collaborators "checkpoint.pt" {| class_name := "A" |} None env_A
     = (@Env mem_torch toy_collaborators
             (@World mem_torch disk_A [EvExists "checkpoint.pt"; EvLoad "checkpoint.pt"])
             (VBlob 0) (VBlob 1) {| best := VBlob 2 |},
        Ok (extra_state_record (VInt 3) (VInt 0) (VBlob 7),
            VList [optim_entry (VStr "A") (VBlob 1) (VBlob 2)])).
Proof.
  split.
  - destruct (@load_state_criterion_guard mem_torch toy_collaborators "checkpoint.pt"
                {| class_name := "B" |} None env_A checkpoint_A checkpoint_A
                (VBlob 0) (VBlob 0) [optim_entry (VStr "A") (VBlob 1) (VBlob 2)]
                (<["best_loss" := VBlob 2]>
                   (<["optimizer" := VBlob 1]> (<["criterion_name" := VStr "A"]> ∅)))
                (VStr "A") (extra_state_record (VInt 3) (VInt 0) (VBlob 7))
                eq_refl eq_refl eq_refl eq_refl eq_refl eq_refl eq_refl eq_refl eq_refl)
      as (Hmis & _ & _).
    apply Hmis. discriminate.
  - destruct (@load_state_criterion_guard mem_torch toy_collaborators "checkpoint.pt"
                {| class_name := "A" |} None env_A checkpoint_A checkpoint_A
                (VBlob 0) (VBlob 0) [optim_entry (VStr "A") (VBlob 1) (VBlob 2)]
                (<["best_loss" := VBlob 2]>
                   (<["optimizer" := VBlob 1]> (<["criterion_name" := VStr "A"]> ∅)))
                (VStr "A") (extra_state_record (VInt 3) (VInt 0) (VBlob 7))
                eq_refl eq_refl eq_refl eq_refl eq_refl eq_refl eq_refl eq_refl eq_refl)
      as (_ & Hmatch & _).
    apply (Hmatch eq_refl (VBlob 1) (VBlob 1) (VBlob 2)); reflexivity.
Defined.

(** C3, as stated, fails: loading the checkpoint written under criterion [A]
    with a criterion named [B] returns normally and leaves optimizer and
    scheduler alone, but logs no record at all. *)
Lemma load_state_mismatch_logs_nothing :
  exists (e' : @env mem_torch toy_collaborators) (r : value * value),
    @load_state mem_torch toy_collaborators "checkpoint.pt" {| class_name := "B" |} None env_A
    = (e', Ok r)
    /\ e_optimizer e' = e_optimizer env_A
    /\ e_lr_scheduler e' = e_lr_scheduler env_A
    /\ logged (w_trace (e_world e')) = [].
Proof.
  exists (@Env mem_torch toy_collaborators
            (@World mem_torch disk_A [EvExists "checkpoint.pt"; EvLoad "checkpoint.pt"])
            (VBlob 0) (VBlob 101) {| best := VBlob 102 |}),
         (extra_state_record (VInt 3) (VInt 0) (VBlob 7),
          VList [optim_entry (VStr "A") (VBlob 1) (VBlob 2)]).
  split; [|repeat split].
  rewrite (@load_state_found mem_torch toy_collaborators "checkpoint.pt"
             {| class_name := "B" |} None env_A checkpoint_A checkpoint_A
             (VBlob 0) (VBlob 0) [optim_entry (VStr "A") (VBlob 1) (VBlob 2)]
             (<["best_loss" := VBlob 2]>
                (<["optimizer" := VBlob 1]> (<["criterion_name" := VStr "A"]> ∅)))
             (VStr "A") (extra_state_record (VInt 3) (VInt 0) (VBlob 7))
             eq_refl eq_refl eq_refl eq_refl eq_refl eq_refl eq_refl eq_refl eq_refl).
  reflexivity.
Qed.

(** ** Ensembles *)

Section Ensemble.
Context `{Torch} `{Collaborators}.

Lemma load_states_step filename filenames states (w : world) state :
  loads (w_disk w) filename state ->
  load_states (filename :: filenames) states w
  = load_states filenames (states ++ [state])
      (World (w_disk w) (w_trace w ++ [EvExists filename; EvLoad filename])).
Proof.
  intros [Hex Hload]. cbn [load_states].
  step_ok ltac:(reflexivity). env_simpl. rewrite Hex. simpl negb. cbv iota.
  step_ok ltac:(unfold load, emit, Eff.bind, Eff.modify, Eff.get, Eff.lift; env_simpl;
                rewrite Hload; reflexivity).
  now rewrite <- app_assoc.
Qed.

Lemma load_states_ok filenames :
  forall states (w : world) loaded,
    Forall2 (loads (w_disk w)) filenames loaded ->
    load_states filenames states w
    = (World (w_disk w) (w_trace w ++ visited filenames), Ok (states ++ loaded)).
Proof.
  induction filenames as [|f fs IH]; intros states w loaded HF.
  - apply Forall2_nil_inv_l in HF as ->. simpl. unfold Eff.ret, visited. simpl.
    rewrite !app_nil_r. now destruct w.
  - apply Forall2_cons_inv_l in HF as (st & sts & Hst & Hsts & ->).
    rewrite (load_states_step _ _ _ _ _ Hst).
    rewrite (IH _ _ sts) by exact Hsts. env_simpl.
    unfold visited. simpl. now rewrite <- !app_assoc.
Qed.

Lemma load_states_missing pre :
  forall p post states (w : world) loaded,
    Forall2 (loads (w_disk w)) pre loaded ->
    os_path_exists p (w_disk w) = false ->
    load_states (pre ++ p :: post) states w
    = (World (w_disk w) (w_trace w ++ visited pre ++ [EvExists p]),
       Raise (IOError ("Model file not found: " +:+ p))).
Proof.
  induction pre as [|f fs IH]; intros p post states w loaded HF Hex.
  - cbn [app load_states]. step_ok ltac:(reflexivity). env_simpl. rewrite Hex.
    reflexivity.
  - apply Forall2_cons_inv_l in HF as (st & sts & Hst & Hsts & ->).
    cbn [app]. rewrite (load_states_step _ _ _ _ _ Hst).
    rewrite (IH _ _ _ _ sts) by assumption. env_simpl.
    unfold visited. simpl. now rewrite <- !app_assoc.
Qed.

Lemma build_ensemble_ok args src_dict dst_dict states :
  forall ensemble built,
    Forall2 (built_from args src_dict dst_dict) states built ->
    build_ensemble args src_dict dst_dict states ensemble = Ok (ensemble ++ built).
Proof.
  induction states as [|st sts IH]; intros ensemble built HF.
  - apply Forall2_nil_inv_l in HF as ->. simpl. now rewrite app_nil_r.
  - apply Forall2_cons_inv_l in HF as (m & ms & (fresh & wts & Hb & Hw & Hl) & Hms & ->).
    cbn [build_ensemble]. rewrite Hb. unfold lookup_key. rewrite Hw, Hl.
    rewrite (IH _ ms Hms). now rewrite <- app_assoc.
Qed.

(** C7 (amended). If a path of the list does not exist and the paths
    before it load, the ensemble load raises
    [IOError('Model file not found: <path>')] right after the existence test
    of that path: the paths after it are neither tested nor read.  When the
    list is not empty and all its paths exist and load, the first snapshot
    has [args], and every snapshot's weights load into a model built from
    those [args], the result is these models, one per path, in the order of
    the paths. *)
Theorem load_ensemble_for_inference_spec (src_dict dst_dict : Dictionary) (w : world) :
  (forall (pre : list string) (p : string) (post : list string) (loaded : list dict),
      Forall2 (loads (w_disk w)) pre loaded ->
      os_path_exists p (w_disk w) = false ->
      load_ensemble_for_inference (pre ++ p :: post) src_dict dst_dict w
      = (World (w_disk w) (w_trace w ++ visited pre ++ [EvExists p]),
         Raise (IOError ("Model file not found: " +:+ p))))
  /\ (forall (filenames : list string) (first : dict) (others : list dict)
             (args : value) (ensemble : list Model),
         Forall2 (loads (w_disk w)) filenames (first :: others) ->
         first !! "args" = Some args ->
         Forall2 (built_from args src_dict dst_dict) (first :: others) ensemble ->
         load_ensemble_for_inference filenames src_dict dst_dict w
         = (World (w_disk w) (w_trace w ++ visited filenames), Ok ensemble)
         /\ length ensemble = length filenames).
Proof.
  split.
  - intros pre p post loaded HF Hex. unfold load_ensemble_for_inference.
    now rewrite (bind_raise _ _ _ _ _ (load_states_missing pre p post [] w loaded HF Hex)).
  - intros filenames first others args ensemble HF Hargs HB. split.
    + unfold load_ensemble_for_inference.
      rewrite (bind_ok _ _ _ _ _ (load_states_ok filenames [] w _ HF)).
      cbn [app]. step_ok ltac:(reflexivity).
      step_ok ltac:(unfold Eff.lift, lookup_key; rewrite Hargs; reflexivity).
      unfold Eff.lift. now rewrite (build_ensemble_ok _ _ _ _ [] ensemble HB).
    + apply Forall2_length in HF, HB. congruence.
Qed.

End Ensemble.

Lemma load_ensemble_for_inference_spec_witness :
  @load_ensemble_for_inference mem_torch toy_collaborators
    ["m1.pt"; "missing.pt"; "m2.pt"] tt tt world_ensemble
  = (@World mem_torch disk_ensemble
       [EvExists "m1.pt"; EvLoad "m1.pt"; EvExists "missing.pt"],
     Raise (IOError "Model file not found: missing.pt"))
  /\ @load_ensemble_for_inference mem_torch toy_collaborators
       ["m1.pt"; "m2.pt"] tt tt world_ensemble
     = (@World mem_torch disk_ensemble
          [EvExists "m1.pt"; EvLoad "m1.pt"; EvExists "m2.pt"; EvLoad "m2.pt"],
        Ok [VBlob 41; VBlob 42]).
Proof.
  destruct (@load_ensemble_for_inference_spec mem_torch toy_collaborators tt tt
              world_ensemble) as [Hmissing Hall].
  split.
  - apply (Hmissing ["m1.pt"] "missing.pt" ["m2.pt"] [checkpoint_1]).
    + repeat constructor.
    + reflexivity.
  - apply (Hall ["m1.pt"; "m2.pt"] checkpoint_1 [checkpoint_2]
             (VDict (<["model" := VStr "fconv"]> ∅)) [VBlob 41; VBlob 42]).
    + repeat constructor.
    + reflexivity.
    + repeat constructor.
      * exists VNone, (VBlob 41). repeat split.
      * exists VNone, (VBlob 42). repeat split.
Defined.

(** C7, as stated, fails twice: a missing path raises [IOError], which is not
    [FileNotFoundError]; and the empty list of paths, all of whose paths
    exist, does not give the empty ensemble but an [IndexError]. *)
Lemma load_ensemble_raises_IOError_and_rejects_empty :
  (exists (w' : @world mem_torch) (e : exn),
      @load_ensemble_for_inference mem_torch toy_collaborators
        ["missing.pt"; "m2.pt"] tt tt world_ensemble = (w', Raise e)
      /\ exn_class e = "IOError"
      /\ exn_class e <> "FileNotFoundError"
      /\ touched (w_trace w') = ["missing.pt"])
  /\ (exists (w' : @world mem_torch) (e : exn),
         @load_ensemble_for_inference mem_torch toy_collaborators [] tt tt world_ensemble
         = (w', Raise e)
         /\ exn_class e = "IndexError").
Proof.
  split.
  - exists (@World mem_torch disk_ensemble [EvExists "missing.pt"]),
           (IOError "Model file not found: missing.pt").
    split; [|repeat split; discriminate].
    unfold load_ensemble_for_inference.
    now rewrite (bind_raise _ _ _ _ _
                   (@load_states_missing mem_torch [] "missing.pt" ["m2.pt"] []
                      world_ensemble [] (List.Forall2_nil _) eq_refl)).
  - exists world_ensemble, (IndexError "list index out of range").
    split; reflexivity.
Qed.

(** ** Embedding files *)

Lemma file_lines_line (h rest : string) :
  occurs LF h = false ->
  file_lines (h +:+ String LF rest) = (h +:+ NL) :: file_lines rest.
Proof.
  induction h as [|c h IH]; simpl; intros Hh.
  - reflexivity.
  - apply orb_false_iff in Hh as [Hc Hh]. rewrite Hc, (IH Hh). reflexivity.
Qed.

Lemma split_space_spec (w vec : string) :
  occurs SPACE w = false -> split_space (w +:+ String SPACE vec) = Some (w, vec).
Proof.
  induction w as [|c w IH]; simpl; intros Hw.
  - reflexivity.
  - apply orb_false_iff in Hw as [Hc Hw]. rewrite Hc, (IH Hw). reflexivity.
Qed.

Lemma dict_get_set_eq {V} (k : string) (v : V) (d : table V) :
  dict_get k (dict_set k v d) = Some v.
Proof.
  induction d as [|[k' v'] d IH]; simpl.
  - now rewrite String.eqb_refl.
  - destruct (String.eqb k k') eqn:E; simpl.
    + now rewrite String.eqb_refl.
    + now rewrite E.
Qed.

Lemma dict_get_set_ne {V} (k k' : string) (v : V) (d : table V) :
  k <> k' -> dict_get k (dict_set k' v d) = dict_get k d.
Proof.
  intros Hne. apply String.eqb_neq in Hne.
  induction d as [|[k2 v2] d IH]; simpl.
  - now rewrite Hne.
  - destruct (String.eqb k' k2) eqn:E; simpl.
    + apply String.eqb_eq in E as <-. now rewrite Hne.
    + now rewrite IH.
Qed.

Lemma report_dimensions_spec {V} (items : table (list V)) (embedd_dim : nat) :
  forall out,
    report_dimensions items embedd_dim out
    = (out ++ dimension_report items embedd_dim, Ok tt).
Proof.
  induction items as [|[k v] items IH]; intros out.
  - unfold dimension_report. simpl. now rewrite app_nil_r.
  - cbn [report_dimensions]. unfold dimension_report in *. simpl.
    destruct (Nat.eqb (length v) embedd_dim); simpl.
    + unfold Eff.bind, Eff.ret. apply IH.
    + unfold Eff.bind, Eff.modify. rewrite IH, <- app_assoc. reflexivity.
Qed.

Section Embedding.
Context `{Numpy}.

Lemma parse_lines_rows (lines : list string) :
  forall (rows : list (string * string)) (i : nat) d (word : option string),
    Forall2 splits_as lines rows ->
    parse_lines (S i) lines d word
    = Ok (fold_left add_row rows d,
          match last rows with
          | Some row => Some (fst row)
          | None => word
          end).
Proof.
  induction lines as [|line lines IH]; intros rows i d word HF.
  - apply Forall2_nil_inv_l in HF as ->. reflexivity.
  - apply Forall2_cons_inv_l in HF as ([w vec] & rows' & [Hl Hw] & HF & ->).
    simpl in Hl, Hw. cbn [parse_lines Nat.eqb]. rewrite Hl, (split_space_spec _ _ Hw).
    rewrite (IH rows' _ _ _ HF). destruct rows' as [|row rows']; [reflexivity|].
    change (last ((w, vec) :: row :: rows')) with (last (row :: rows')).
    destruct (last (row :: rows')) eqn:E; [reflexivity|].
    apply last_None in E. discriminate.
Qed.

Lemma fold_add_row_other (w : string) (post : list (string * string)) :
  forall d, w ∉ map fst post ->
            dict_get w (fold_left add_row post d) = dict_get w d.
Proof.
  induction post as [|[w' vec'] post IH]; intros d Hn; [reflexivity|].
  simpl in Hn. apply not_elem_of_cons in Hn as [Hne Hn].
  cbn [fold_left]. rewrite (IH _ Hn). unfold add_row. now apply dict_get_set_ne.
Qed.

Lemma fold_add_row_lookup (pre post : list (string * string)) (w vec : string) d :
  w ∉ map fst post ->
  dict_get w (fold_left add_row (pre ++ (w, vec) :: post) d) = Some (np_fromstring vec).
Proof.
  intros Hn. rewrite fold_left_app. cbn [fold_left].
  rewrite (fold_add_row_other _ _ _ Hn). unfold add_row at 1. apply dict_get_set_eq.
Qed.

(** The whole run on a file whose data lines all have a space. *)
Lemma parse_embedding_rows (content header : string) (lines : list string)
    (rows : list (string * string)) (w vec : string) (out : list (nat * nat)) :
  file_lines content = header :: lines ->
  Forall2 splits_as lines rows ->
  last rows = Some (w, vec) ->
  parse_embedding content out
  = (out ++ dimension_report (fold_left add_row rows []) (length (np_fromstring vec)),
     Ok (fold_left add_row rows [])).
Proof.
  intros Hfl HF Hlast. unfold parse_embedding. rewrite Hfl.
  cbn [parse_lines Nat.eqb]. rewrite (parse_lines_rows _ _ _ _ _ HF), Hlast.
  step_ok ltac:(reflexivity). cbn [fst snd].
  apply last_Some in Hlast as [pre ->].
  step_ok ltac:(unfold Eff.lift, lookup_word;
                rewrite (fold_add_row_lookup pre [] w vec [])
                  by (simpl; apply not_elem_of_nil);
                reflexivity).
  step_ok ltac:(apply report_dimensions_spec).
  reflexivity.
Qed.

(** The items of the two data lines of the example file. *)
Lemma words_example :
  words EmptyString ("-0.1 -0.2 0.3 0.1 0.4" +:+ NL) = ["-0.1"; "-0.2"; "0.3"; "0.1"; "0.4"]
  /\ words EmptyString ("0.0 0.1 -0.1 0.0 0.2" +:+ NL) = ["0.0"; "0.1"; "-0.1"; "0.0"; "0.2"].
Proof. split; reflexivity. Qed.

Lemma parse_floats_all (items : list string) (v : list float64) :
  Forall2 (fun item x => parse_float item = Some x) items v -> parse_floats items = v.
Proof.
  induction 1 as [|item x items v Hx _ IH]; simpl; [reflexivity|]. now rewrite Hx, IH.
Qed.

(** C8 (amended). The parser skips the first line whatever it holds.  When
    every later line has a space character, the table returned is built by
    taking the lines in file order, each keyed by its text before the first
    space character, with [np.fromstring] of the rest of the line as its
    vector, a later line replacing the vector of an earlier line of the same
    key.  On the example file the table has exactly the entries [the] and
    [at], each the five floats parsed from its line. *)
Theorem parse_embedding_table :
  (forall (h1 h2 body : string) (out : list (nat * nat)),
      occurs LF h1 = false ->
      occurs LF h2 = false ->
      parse_embedding (h1 +:+ String LF body) out
      = parse_embedding (h2 +:+ String LF body) out)
  /\ (forall (content header : string) (lines : list string)
             (rows : list (string * string)) (out : list (nat * nat)),
         file_lines content = header :: lines ->
         rows <> [] ->
         Forall2 splits_as lines rows ->
         snd (parse_embedding content out) = Ok (fold_left add_row rows [])
         /\ forall pre w vec post,
              rows = pre ++ (w, vec) :: post ->
              w ∉ map fst post ->
              dict_get w (fold_left add_row rows []) = Some (np_fromstring vec))
  /\ (forall (v1 v2 : list float64) (out : list (nat * nat)),
         Forall2 (fun item x => parse_float item = Some x)
                 ["-0.1"; "-0.2"; "0.3"; "0.1"; "0.4"] v1 ->
         Forall2 (fun item x => parse_float item = Some x)
                 ["0.0"; "0.1"; "-0.1"; "0.0"; "0.2"] v2 ->
         parse_embedding embedding_example out = (out, Ok [("the", v1); ("at", v2)])
         /\ length v1 = 5 /\ length v2 = 5).
Proof.
  split; [|split].
  - intros h1 h2 body out Hh1 Hh2. unfold parse_embedding.
    rewrite (file_lines_line _ _ Hh1), (file_lines_line _ _ Hh2). reflexivity.
  - intros content header lines rows out Hfl Hne HF. split.
    + destruct (last rows) as [[w vec]|] eqn:Hlast;
        [|apply last_None in Hlast; contradiction].
      now rewrite (parse_embedding_rows _ _ _ _ _ _ out Hfl HF Hlast).
    + intros pre w vec post -> Hn. now apply fold_add_row_lookup.
  - intros v1 v2 out H1 H2.
    pose proof (Forall2_length _ _ _ H1) as L1. pose proof (Forall2_length _ _ _ H2) as L2.
    simpl in L1, L2. split; [|split; congruence].
    rewrite (parse_embedding_rows embedding_example ("2 5" +:+ NL)
               ["the -0.1 -0.2 0.3 0.1 0.4" +:+ NL; "at 0.0 0.1 -0.1 0.0 0.2" +:+ NL]
               [("the", "-0.1 -0.2 0.3 0.1 0.4" +:+ NL); ("at", "0.0 0.1 -0.1 0.0 0.2" +:+ NL)]
               "at" ("0.0 0.1 -0.1 0.0 0.2" +:+ NL) out eq_refl);
      [| repeat constructor | reflexivity].
    cbn [fold_left]. unfold add_row. cbn [fst snd]. unfold np_fromstring.
    destruct words_example as [-> ->].
    rewrite (parse_floats_all _ _ H1), (parse_floats_all _ _ H2).
    unfold dimension_report. cbn. rewrite <- L1, <- L2. cbn. now rewrite app_nil_r.
Qed.

(** C9 (amended). When every data line has a space character, the parser
    prints one pair (length, dimension) for each entry of the table, in table
    order, whose vector length differs from the dimension, the dimension being
    the length of the vector of the last line parsed; and it returns the whole
    table, the entries printed included. *)
Theorem parse_embedding_report (content header : string) (lines : list string)
    (rows : list (string * string)) (w vec : string) (out : list (nat * nat)) :
  file_lines content = header :: lines ->
  Forall2 splits_as lines rows ->
  last rows = Some (w, vec) ->
  exists (items : table (list float64)) (embedd_dim : nat),
    items = fold_left add_row rows []
    /\ embedd_dim = length (np_fromstring vec)
    /\ parse_embedding content out
       = (out ++ map (fun kv => (length (snd kv), embedd_dim))
                     (List.filter (fun kv => negb (Nat.eqb (length (snd kv)) embedd_dim))
                                  items),
          Ok items).
Proof.
  intros Hfl HF Hlast. eexists _, _. split; [reflexivity|]. split; [reflexivity|].
  exact (parse_embedding_rows _ _ _ _ _ _ out Hfl HF Hlast).
Qed.

(** C10. A file with no data line (empty, or its header alone) does not
    give an empty table: after the loop [word] is still [None], the lookup
    [embedd_dict[word]] raises [KeyError], and nothing is printed. *)
Theorem parse_embedding_header_only (content : string) (out : list (nat * nat)) :
  length (file_lines content) <= 1 ->
  parse_embedding content out = (out, Raise (KeyError "None")).
Proof.
  intros Hlen. unfold parse_embedding.
  destruct (file_lines content) as [|header [|line lines]]; [reflexivity|reflexivity|].
  simpl in Hlen. lia.
Qed.

End Embedding.

(** *** Witnesses with floats kept as text *)

Lemma parse_embedding_table_witness :
  @parse_embedding literal_numpy ("2 5" +:+ String LF "the 1 2") []
  = @parse_embedding literal_numpy ("the 1 2 3" +:+ String LF "the 1 2") []
  /\ (snd (@parse_embedding literal_numpy embedding_example [])
      = Ok (fold_left (@add_row literal_numpy)
              [("the", "-0.1 -0.2 0.3 0.1 0.4" +:+ NL); ("at", "0.0 0.1 -0.1 0.0 0.2" +:+ NL)]
              [])
      /\ dict_get "at"
           (fold_left (@add_row literal_numpy)
              [("the", "-0.1 -0.2 0.3 0.1 0.4" +:+ NL); ("at", "0.0 0.1 -0.1 0.0 0.2" +:+ NL)]
              [])
         = Some (@np_fromstring literal_numpy ("0.0 0.1 -0.1 0.0 0.2" +:+ NL)))
  /\ @parse_embedding literal_numpy embedding_example []
     = ([], Ok [("the", ["-0.1"; "-0.2"; "0.3"; "0.1"; "0.4"]);
                ("at", ["0.0"; "0.1"; "-0.1"; "0.0"; "0.2"])]).
Proof.
  destruct (@parse_embedding_table literal_numpy) as (Hheader & Hrows & Hexample).
  split; [|split].
  - apply Hheader; reflexivity.
  - destruct (Hrows embedding_example ("2 5" +:+ NL)
                ["the -0.1 -0.2 0.3 0.1 0.4" +:+ NL; "at 0.0 0.1 -0.1 0.0 0.2" +:+ NL]
                [("the", "-0.1 -0.2 0.3 0.1 0.4" +:+ NL); ("at", "0.0 0.1 -0.1 0.0 0.2" +:+ NL)]
                [] eq_refl) as [Htable Hlookup].
    + discriminate.
    + repeat constructor.
    + split; [exact Htable|].
      apply (Hlookup [("the", "-0.1 -0.2 0.3 0.1 0.4" +:+ NL)] "at"
               ("0.0 0.1 -0.1 0.0 0.2" +:+ NL) [] eq_refl).
      apply not_elem_of_nil.
  - apply (Hexample ["-0.1"; "-0.2"; "0.3"; "0.1"; "0.4"]
             ["0.0"; "0.1"; "-0.1"; "0.0"; "0.2"] []); repeat constructor.
Defined.

Lemma parse_embedding_report_witness :
  exists (items : table (list string)) (embedd_dim : nat),
    items = fold_left (@add_row literal_numpy) [("a", "1" +:+ NL); ("b", "1 2" +:+ NL)] []
    /\ embedd_dim = length (@np_fromstring literal_numpy ("1 2" +:+ NL))
    /\ @parse_embedding literal_numpy ragged_example []
       = ([] ++ map (fun kv => (length (snd kv), embedd_dim))
                    (List.filter (fun kv => negb (Nat.eqb (length (snd kv)) embedd_dim))
                                 items),
          Ok items).
Proof.
  apply (@parse_embedding_report literal_numpy ragged_example ("2 1" +:+ NL)
           ["a 1" +:+ NL; "b 1 2" +:+ NL] [("a", "1" +:+ NL); ("b", "1 2" +:+ NL)]
           "b" ("1 2" +:+ NL) [] eq_refl).
  - repeat constructor.
  - reflexivity.
Defined.

Lemma parse_embedding_header_only_witness :
  @parse_embedding literal_numpy header_only_example [] = ([], Raise (KeyError "None"))
  /\ @parse_embedding literal_numpy EmptyString [] = ([], Raise (KeyError "None")).
Proof.
  split; apply (@parse_embedding_header_only literal_numpy); simpl; lia.
Defined.

(** C8, as stated, fails: a line with a tab before its first space is keyed
    by everything up to that space, tab included, not by the text before its
    first whitespace. *)
Lemma parse_embedding_key_up_to_first_space :
  @parse_embedding literal_numpy tab_example []
  = ([], Ok [("a" +:+ String TAB "b", ["1.0"])])
  /\ text_before_whitespace tab_line = "a"
  /\ "a" +:+ String TAB "b" <> text_before_whitespace tab_line.
Proof.
  split; [reflexivity|]. split; [reflexivity|]. discriminate.
Qed.

(** C9, as stated, fails: with a first row of one float and a second of two,
    the row printed is the first one, against the length of the last; the
    rows that differ from the first row are not what is printed. *)
Lemma parse_embedding_reports_against_last :
  @parse_embedding literal_numpy ragged_example []
  = ([(1, 2)], Ok [("a", ["1"]); ("b", ["1"; "2"])])
  /\ report_against_first [("a", ["1"]); ("b", ["1"; "2"])] = [(2, 1)]
  /\ fst (@parse_embedding literal_numpy ragged_example [])
     <> report_against_first [("a", ["1"]); ("b", ["1"; "2"])].
Proof.
  split; [reflexivity|]. split; [reflexivity|]. discriminate.
Qed.

(** * Further properties *)

(** ** Format upgrade: frame, version 2, failures *)

Lemma upgrade_optimizer_history_frame (s : dict) (k : string) :
  k <> "optimizer_history" -> k <> "optimizer" -> k <> "best_loss" ->
  fst (upgrade_optimizer_history s) !! k = s !! k.
Proof.
  intros N1 N2 N3. upgrade_unfold. case_bool_decide as Hh; simpl; [reflexivity|].
  destruct (s !! "optimizer") as [o|] eqn:Ho; [|reflexivity].
  destruct (s !! "best_loss") as [b|] eqn:Hb; [|reflexivity].
  rewrite lookup_insert_ne, Ho by discriminate.
  rewrite lookup_delete_ne, lookup_insert_ne, Hb by discriminate.
  simpl. now rewrite !lookup_delete_ne, lookup_insert_ne by congruence.
Qed.

Lemma upgrade_extra_state_frame (s : dict) (k : string) :
  k <> "extra_state" -> k <> "epoch" -> k <> "batch_offset" -> k <> "val_loss" ->
  fst (upgrade_extra_state s) !! k = s !! k.
Proof.
  intros N1 N2 N3 N4. upgrade_unfold.
  case_bool_decide as He; case_bool_decide as Hx; simpl; try reflexivity.
  destruct (s !! "epoch") as [ep|] eqn:Hep; [|reflexivity].
  destruct (s !! "batch_offset") as [bo|] eqn:Hbo; [|reflexivity].
  destruct (s !! "val_loss") as [vl|] eqn:Hvl; [|reflexivity].
  rewrite lookup_insert_ne, Hep by discriminate.
  rewrite lookup_delete_ne, lookup_insert_ne, Hbo by discriminate.
  rewrite !lookup_delete_ne, lookup_insert_ne, Hvl by discriminate.
  simpl. now rewrite !lookup_delete_ne, lookup_insert_ne by congruence.
Qed.

(** X1. Whatever the dict and whether the upgrade returns or raises, the
    fields other than the five legacy fields, [optimizer_history] and
    [extra_state] are as they were: [model] and [args] are never touched. *)
Theorem upgrade_state_dict_frame (s : dict) (k : string) :
  ~ In k legacy_fields -> ~ In k upgrade_fields ->
  fst (_upgrade_state_dict s) !! k = s !! k.
Proof.
  intros Hl Hu. unfold legacy_fields, upgrade_fields in *. simpl in Hl, Hu.
  unfold _upgrade_state_dict, Eff.bind.
  pose proof (upgrade_optimizer_history_frame s k) as F1.
  destruct (upgrade_optimizer_history s) as [s1 [[]|e]]; simpl in *.
  - etransitivity; [|apply F1; intros ->; tauto].
    apply upgrade_extra_state_frame; intros ->; tauto.
  - apply F1; intros ->; tauto.
Qed.

Lemma upgrade_state_dict_frame_witness :
  fst (_upgrade_state_dict v1_example) !! "model" = Some (VBlob 1).
Proof.
  rewrite (upgrade_state_dict_frame v1_example "model").
  - reflexivity.
  - unfold legacy_fields. simpl. intros [H|[H|[H|[H|[H|[]]]]]]; discriminate.
  - unfold upgrade_fields. simpl. intros [H|[H|[]]]; discriminate.
Defined.

(** X2. A version-2 snapshot (it has [optimizer_history], [epoch],
    [batch_offset] and [val_loss] but no [extra_state]) is upgraded without
    error: the three fields move into [extra_state] and the history is kept
    as it is. *)
Theorem upgrade_state_dict_v2 (s : dict) (h ep bo vl : value) :
  s !! "optimizer_history" = Some h ->
  s !! "epoch" = Some ep ->
  s !! "batch_offset" = Some bo ->
  s !! "val_loss" = Some vl ->
  s !! "extra_state" = None ->
  _upgrade_state_dict s
  = (delete "val_loss"
       (delete "batch_offset"
          (delete "epoch" (<["extra_state" := extra_state_record ep bo vl]> s))),
     Ok tt)
  /\ fst (_upgrade_state_dict s) !! "optimizer_history" = Some h
  /\ fst (_upgrade_state_dict s) !! "extra_state" = Some (extra_state_record ep bo vl)
  /\ fst (_upgrade_state_dict s) !! "epoch" = None
  /\ fst (_upgrade_state_dict s) !! "batch_offset" = None
  /\ fst (_upgrade_state_dict s) !! "val_loss" = None.
Proof.
  intros Hh Hep Hbo Hvl Hx.
  assert (E : _upgrade_state_dict s
              = (delete "val_loss"
                   (delete "batch_offset"
                      (delete "epoch" (<["extra_state" := extra_state_record ep bo vl]> s))),
                 Ok tt)).
  { unfold _upgrade_state_dict.
    rewrite (bind_ok _ _ _ _ _ (upgrade_optimizer_history_skip s (mk_is_Some _ _ Hh))).
    unfold upgrade_extra_state.
    rewrite (bind_ok _ _ _ _ _ (contains_spec _ _)).
    rewrite (is_Some_true (_ !! "epoch")) by eauto.
    rewrite (bind_ok _ _ _ _ _ (contains_spec _ _)), (is_None_false _ Hx). simpl.
    do 3 (erewrite bind_ok by (apply getitem_ok; lookup_solve)).
    rewrite (bind_ok _ _ _ _ _ (setitem_ok _ _ _)).
    do 2 (erewrite bind_ok by (eapply delitem_ok; lookup_solve)).
    eapply delitem_ok; lookup_solve. }
  rewrite E. simpl. repeat split; lookup_solve.
Qed.

(** A version-2 snapshot. *)
Lemma upgrade_state_dict_v2_witness :
  fst (_upgrade_state_dict
         (<["optimizer_history" := VList []]>
            (<["epoch" := VInt 1]>
               (<["batch_offset" := VInt 2]> (<["val_loss" := VBlob 3]> ∅)))))
  !! "extra_state"
  = Some (extra_state_record (VInt 1) (VInt 2) (VBlob 3)).
Proof.
  apply (upgrade_state_dict_v2 _ (VList []) (VInt 1) (VInt 2) (VBlob 3)); reflexivity.
Defined.

(** X3. A dict without [optimizer_history] that lacks [optimizer] or
    [best_loss] makes the upgrade raise [KeyError] for the first of the two
    that is missing, and is left exactly as it was. *)
Theorem upgrade_state_dict_missing_legacy (s : dict) :
  s !! "optimizer_history" = None ->
  s !! "optimizer" = None \/ s !! "best_loss" = None ->
  _upgrade_state_dict s
  = (s, Raise (KeyError (if bool_decide (is_Some (s !! "optimizer"))
                         then "best_loss" else "optimizer"))).
Proof.
  intros Hh Hm. upgrade_unfold. rewrite (is_None_false _ Hh). simpl.
  destruct (s !! "optimizer") as [o|] eqn:Ho.
  - destruct Hm as [Hm|Hm]; [discriminate|]. rewrite Hm. reflexivity.
  - reflexivity.
Qed.

Lemma upgrade_state_dict_missing_legacy_witness :
  _upgrade_state_dict (<["optimizer" := VBlob 1]> (<["model" := VBlob 0]> ∅))
  = (<["optimizer" := VBlob 1]> (<["model" := VBlob 0]> ∅), Raise (KeyError "best_loss")).
Proof.
  exact (upgrade_state_dict_missing_legacy
           (<["optimizer" := VBlob 1]> (<["model" := VBlob 0]> ∅))
           eq_refl (or_intror eq_refl)).
Defined.

(** X4. The upgrade is not atomic: a dict without history that has
    [optimizer], [best_loss] and [epoch] but lacks [batch_offset] or
    [val_loss] raises [KeyError] for the missing field after the first block
    has run, so it is left with its history synthesized and its [optimizer]
    and [best_loss] removed, and with [epoch] still at the top level. *)
Theorem upgrade_state_dict_half_done (s : dict) (o bl ep : value) :
  s !! "optimizer_history" = None ->
  s !! "optimizer" = Some o ->
  s !! "best_loss" = Some bl ->
  s !! "epoch" = Some ep ->
  s !! "extra_state" = None ->
  s !! "batch_offset" = None \/ s !! "val_loss" = None ->
  _upgrade_state_dict s
  = (delete "best_loss"
       (delete "optimizer"
          (<["optimizer_history" :=
               VList [optim_entry (VStr CrossEntropyCriterion__name__) o bl]]> s)),
     Raise (KeyError (if bool_decide (is_Some (s !! "batch_offset"))
                      then "val_loss" else "batch_offset"))).
Proof.
  intros Hh Ho Hbl Hep Hx Hm.
  unfold _upgrade_state_dict. erewrite bind_ok; cycle 1.
  { unfold upgrade_optimizer_history.
    rewrite (bind_ok _ _ _ _ _ (contains_spec _ _)), (is_None_false _ Hh). simpl.
    do 2 (erewrite bind_ok by (apply getitem_ok; lookup_solve)).
    rewrite (bind_ok _ _ _ _ _ (setitem_ok _ _ _)).
    erewrite bind_ok by (eapply delitem_ok; lookup_solve).
    eapply delitem_ok; lookup_solve. }
  unfold upgrade_extra_state.
  rewrite (bind_ok _ _ _ _ _ (contains_spec _ _)).
  rewrite (is_Some_true (_ !! "epoch")) by (eexists; lookup_solve).
  rewrite (bind_ok _ _ _ _ _ (contains_spec _ _)).
  rewrite (is_None_false (_ !! "extra_state")) by lookup_solve. simpl.
  erewrite bind_ok by (apply getitem_ok; lookup_solve).
  destruct (s !! "batch_offset") as [bo|] eqn:Hbo.
  - destruct Hm as [Hm|Hm]; [discriminate|].
    erewrite bind_ok by (apply getitem_ok; lookup_solve).
    change (bool_decide (is_Some (Some bo))) with true. cbv iota.
    apply bind_raise. unfold getitem.
    now rewrite !lookup_delete_ne, lookup_insert_ne, Hm by discriminate.
  - change (bool_decide (is_Some (@None value))) with false. cbv iota.
    apply bind_raise. unfold getitem.
    now rewrite !lookup_delete_ne, lookup_insert_ne, Hbo by discriminate.
Qed.

Lemma upgrade_state_dict_half_done_witness :
  _upgrade_state_dict
    (<["epoch" := VInt 4]> (<["best_loss" := VBlob 3]> (<["optimizer" := VBlob 2]> ∅)))
  = (delete "best_loss"
       (delete "optimizer"
          (<["optimizer_history" :=
               VList [optim_entry (VStr CrossEntropyCriterion__name__) (VBlob 2) (VBlob 3)]]>
             (<["epoch" := VInt 4]>
                (<["best_loss" := VBlob 3]> (<["optimizer" := VBlob 2]> ∅))))),
     Raise (KeyError "batch_offset")).
Proof.
  exact (upgrade_state_dict_half_done
           (<["epoch" := VInt 4]> (<["best_loss" := VBlob 3]> (<["optimizer" := VBlob 2]> ∅)))
           (VBlob 2) (VBlob 3) (VInt 4) eq_refl eq_refl eq_refl eq_refl eq_refl
           (or_introl eq_refl)).
Defined.

(** ** Saving and loading together *)

(** A dict that has a history and an extra state is in the current format. *)
Lemma upgrade_state_dict_current (s : dict) :
  is_Some (s !! "optimizer_history") -> is_Some (s !! "extra_state") ->
  _upgrade_state_dict s = (s, Ok tt).
Proof.
  intros Hh Hx. unfold _upgrade_state_dict.
  rewrite (bind_ok _ _ _ _ _ (upgrade_optimizer_history_skip _ Hh)).
  unfold upgrade_extra_state, Eff.bind, contains, Eff.ret.
  rewrite (is_Some_true _ Hx). now rewrite andb_false_r.
Qed.

Lemma optim_entry_lookups (cn o b : value) :
  exists entry : dict,
    optim_entry cn o b = VDict entry
    /\ entry !! "criterion_name" = Some cn
    /\ entry !! "optimizer" = Some o
    /\ entry !! "best_loss" = Some b.
Proof.
  eexists. split; [reflexivity|]. repeat split; lookup_solve.
Qed.

Section SaveLoad.
Context `{Torch} `{Collaborators}.

(** X5. Every snapshot [save_state] builds is in the current format: the
    upgrade returns it unchanged, and its history ends with the entry of this
    save, so it is never empty. *)
Theorem save_state_dict_current (args : value) (model : Model) (criterion : Criterion)
    (optimizer : Optimizer) (lr_scheduler : LRScheduler)
    (optim_history : option (list value)) (extra_state : option value) :
  let snapshot :=
    save_state_dict args model criterion optimizer lr_scheduler optim_history extra_state in
  _upgrade_state_dict snapshot = (snapshot, Ok tt)
  /\ exists h : list value,
       snapshot !! "optimizer_history" = Some (VList h)
       /\ last h = Some (optim_entry (VStr (class_name criterion))
                                      (optimizer_state_dict optimizer) (best lr_scheduler))
       /\ length h = S (length (default [] optim_history)).
Proof.
  intros snapshot. split.
  - apply upgrade_state_dict_current; unfold snapshot, save_state_dict.
    + rewrite lookup_insert_ne, lookup_insert_eq by discriminate. eauto.
    + rewrite lookup_insert_eq. eauto.
  - eexists. split; [apply save_state_dict_history|]. split.
    + apply last_snoc.
    + rewrite length_app. simpl. lia.
Qed.

(** The run of [load_state] when the names match and the restore succeeds. *)
Lemma load_state_match (filename : string) (criterion : Criterion)
    (cuda_device : option Z) (e : env) (state state' : dict) (weights : value)
    (m' : Model) (history : list value) (entry : dict) (extra o b : value)
    (opt' : Optimizer) (r : result value) :
  os_path_exists filename (w_disk (e_world e)) = true ->
  torch_load filename (restore_location cuda_device) (w_disk (e_world e)) = Ok state ->
  _upgrade_state_dict state = (state', Ok tt) ->
  state' !! "model" = Some weights ->
  model_load_state_dict weights (e_model e) = (m', Ok tt) ->
  state' !! "optimizer_history" = Some (VList history) ->
  last history = Some (VDict entry) ->
  entry !! "criterion_name" = Some (VStr (class_name criterion)) ->
  entry !! "optimizer" = Some o ->
  optimizer_load_state_dict o (e_optimizer e) = (opt', Ok tt) ->
  entry !! "best_loss" = Some b ->
  lookup_key state' "extra_state" = r ->
  load_state filename criterion cuda_device e
  = (Env (loaded_world filename (e_world e)) m' opt' {| best := b |},
     match r with
     | Ok extra => Ok (extra, VList history)
     | Raise ex => Raise ex
     end).
Proof.
  intros Hex Hload Hup Hm Hml Hh Hlast Hcn Ho Hol Hb Hx. unfold load_state.
  step_ok ltac:(apply on_world_path_exists). rewrite Hex. simpl negb. cbv iota.
  step_ok ltac:(rewrite on_world_load; env_simpl; rewrite Hload; reflexivity).
  step_ok ltac:(unfold Eff.lift, upgraded; rewrite Hup; reflexivity).
  step_ok ltac:(unfold Eff.lift, lookup_key; rewrite Hm; reflexivity).
  step_ok ltac:(unfold on_model, zoom; env_simpl; rewrite Hml; reflexivity).
  step_ok ltac:(unfold Eff.lift, lookup_key; rewrite Hh; reflexivity).
  step_ok ltac:(unfold Eff.lift, index_last; rewrite Hlast; reflexivity).
  step_ok ltac:(unfold Eff.lift, subscript, lookup_key; rewrite Hcn; reflexivity).
  env_simpl. unfold loaded_world. rewrite <- app_assoc. cbn [app].
  cbn [eq_str]. rewrite String.eqb_refl.
  step_ok ltac:(
    step_ok ltac:(unfold Eff.lift, subscript, lookup_key; rewrite Ho; reflexivity);
    step_ok ltac:(unfold on_optimizer, zoom; env_simpl; rewrite Hol; reflexivity);
    step_ok ltac:(unfold Eff.lift, subscript, lookup_key; rewrite Hb; reflexivity);
    reflexivity).
  unfold Eff.bind, Eff.lift. rewrite Hx. now destruct r.
Qed.

(** X6. Round trip: when [torch.save] succeeds at the first attempt and the
    disk it leaves gives back what was saved, [load_state] under a criterion
    of the same type name loads the saved model weights and the saved
    optimizer state, sets the scheduler's best loss to the saved one, and
    returns the extra state and the whole history that were saved. *)
Theorem save_state_load_state_round_trip (filename : string) (args : value)
    (model : Model) (criterion criterion' : Criterion) (optimizer : Optimizer)
    (lr_scheduler : LRScheduler) (optim_history : option (list value))
    (extra_state : option value) (cuda_device : option Z) (w : world) (d' : disk)
    (m0 m1 : Model) (o0 o1 : Optimizer) (s0 : LRScheduler) :
  let snapshot :=
    save_state_dict args model criterion optimizer lr_scheduler optim_history extra_state in
  torch_save snapshot filename (w_disk w) = (d', Ok tt) ->
  os_path_exists filename d' = true ->
  torch_load filename (restore_location cuda_device) d' = Ok snapshot ->
  model_load_state_dict (model_state_dict model) m0 = (m1, Ok tt) ->
  optimizer_load_state_dict (optimizer_state_dict optimizer) o0 = (o1, Ok tt) ->
  class_name criterion' = class_name criterion ->
  exists w1 : world,
    save_state filename args model criterion optimizer lr_scheduler optim_history
               extra_state w = (w1, Ok tt)
    /\ load_state filename criterion' cuda_device (Env w1 m0 o0 s0)
       = (Env (loaded_world filename w1) m1 o1 {| best := best lr_scheduler |},
          Ok (default (VDict ∅) extra_state,
              VList (default [] optim_history
                     ++ [optim_entry (VStr (class_name criterion))
                                     (optimizer_state_dict optimizer)
                                     (best lr_scheduler)]))).
Proof.
  intros snapshot Hsave Hex Hload Hml Hol Hname.
  exists (World d' (w_trace w ++ [EvSave filename snapshot true])). split.
  - unfold save_state, torch_persistent_save. simpl seq.
    apply (persistent_save_loop_ok _ _ _ _ _ _ Hsave).
  - destruct (optim_entry_lookups (VStr (class_name criterion))
                (optimizer_state_dict optimizer) (best lr_scheduler))
      as (entry & Hentry & Hcn & Ho & Hb).
    rewrite Hentry. rewrite <- Hname in Hcn.
    refine (load_state_match filename criterion' cuda_device
              (Env (World d' (w_trace w ++ [EvSave filename snapshot true])) m0 o0 s0)
              snapshot snapshot
              (model_state_dict model) m1 _ entry (default (VDict ∅) extra_state) _ _ o1
              (Ok (default (VDict ∅) extra_state))
              Hex Hload _ _ Hml _ _ Hcn Ho Hol Hb _).
    + apply save_state_dict_current.
    + unfold snapshot, save_state_dict. lookup_solve.
    + unfold snapshot. rewrite save_state_dict_history, Hentry. reflexivity.
    + apply last_snoc.
    + unfold lookup_key, snapshot, save_state_dict. now rewrite lookup_insert_eq.
Qed.

End SaveLoad.

(** The dict a version-1 snapshot is upgraded to. *)
Lemma upgrade_state_dict_v1_result (s : dict) (o bl ep bo vl : value) :
  s !! "optimizer" = Some o ->
  s !! "best_loss" = Some bl ->
  s !! "epoch" = Some ep ->
  s !! "batch_offset" = Some bo ->
  s !! "val_loss" = Some vl ->
  s !! "optimizer_history" = None ->
  s !! "extra_state" = None ->
  _upgrade_state_dict s
  = (delete "val_loss"
       (delete "batch_offset"
          (delete "epoch"
             (<["extra_state" := extra_state_record ep bo vl]>
                (delete "best_loss"
                   (delete "optimizer"
                      (<["optimizer_history" :=
                           VList [optim_entry (VStr CrossEntropyCriterion__name__) o bl]]>
                         s)))))),
     Ok tt).
Proof.
  intros Ho Hbl Hep Hbo Hvl Hh Hx.
  unfold _upgrade_state_dict. erewrite bind_ok; cycle 1.
  { unfold upgrade_optimizer_history.
    rewrite (bind_ok _ _ _ _ _ (contains_spec _ _)), (is_None_false _ Hh). simpl.
    do 2 (erewrite bind_ok by (apply getitem_ok; lookup_solve)).
    rewrite (bind_ok _ _ _ _ _ (setitem_ok _ _ _)).
    erewrite bind_ok by (eapply delitem_ok; lookup_solve).
    eapply delitem_ok; lookup_solve. }
  unfold upgrade_extra_state.
  rewrite (bind_ok _ _ _ _ _ (contains_spec _ _)).
  rewrite (is_Some_true (_ !! "epoch")) by (eexists; lookup_solve).
  rewrite (bind_ok _ _ _ _ _ (contains_spec _ _)).
  rewrite (is_None_false (_ !! "extra_state")) by lookup_solve. simpl.
  do 3 (erewrite bind_ok by (apply getitem_ok; lookup_solve)).
  rewrite (bind_ok _ _ _ _ _ (setitem_ok _ _ _)).
  do 2 (erewrite bind_ok by (eapply delitem_ok; lookup_solve)).
  eapply delitem_ok; lookup_solve.
Qed.

Lemma keeps_world_ret `{Torch} `{Collaborators} {A} (a : A) :
  keeps_world (Eff.ret a).
Proof. intros e. reflexivity. Qed.

Lemma keeps_world_lift `{Torch} `{Collaborators} {A} (r : result A) :
  keeps_world (Eff.lift r).
Proof. intros e. reflexivity. Qed.

Lemma keeps_world_on_model `{Torch} `{Collaborators} {A} (m : Eff.M Model A) :
  keeps_world (on_model m).
Proof. intros e. unfold on_model, zoom. now destruct (m (e_model e)). Qed.

Lemma keeps_world_on_optimizer `{Torch} `{Collaborators} {A} (m : Eff.M Optimizer A) :
  keeps_world (on_optimizer m).
Proof. intros e. unfold on_optimizer, zoom. now destruct (m (e_optimizer e)). Qed.

Lemma keeps_world_set_best `{Torch} `{Collaborators} (b : value) :
  keeps_world (set_best b).
Proof. intros e. reflexivity. Qed.

Lemma keeps_world_bind `{Torch} `{Collaborators} {A B} (m : Eff.M env A)
    (k : A -> Eff.M env B) :
  keeps_world m -> (forall a, keeps_world (k a)) -> keeps_world (Eff.bind m k).
Proof.
  intros Hm Hk e. unfold Eff.bind. specialize (Hm e).
  destruct (m e) as [e1 [a|ex]]; simpl in *; [|exact Hm].
  now rewrite (Hk a e1).
Qed.

Section LoadingEdges.
Context `{Torch} `{Collaborators}.

(** X7. Loading a version-1 snapshot under a criterion whose type name is the
    plain cross-entropy one: the snapshot is upgraded on the way, the model
    weights are loaded, the optimizer state and the best loss are restored
    from the legacy top-level fields, and the extra state returned holds the
    legacy epoch, batch offset and validation loss. *)
Theorem load_state_legacy (filename : string) (criterion : Criterion)
    (cuda_device : option Z) (e : env) (s : dict) (weights o bl ep bo vl : value)
    (m' : Model) (opt' : Optimizer) :
  os_path_exists filename (w_disk (e_world e)) = true ->
  torch_load filename (restore_location cuda_device) (w_disk (e_world e)) = Ok s ->
  s !! "model" = Some weights ->
  s !! "optimizer" = Some o ->
  s !! "best_loss" = Some bl ->
  s !! "epoch" = Some ep ->
  s !! "batch_offset" = Some bo ->
  s !! "val_loss" = Some vl ->
  s !! "optimizer_history" = None ->
  s !! "extra_state" = None ->
  model_load_state_dict weights (e_model e) = (m', Ok tt) ->
  optimizer_load_state_dict o (e_optimizer e) = (opt', Ok tt) ->
  class_name criterion = CrossEntropyCriterion__name__ ->
  load_state filename criterion cuda_device e
  = (Env (loaded_world filename (e_world e)) m' opt' {| best := bl |},
     Ok (extra_state_record ep bo vl,
         VList [optim_entry (VStr CrossEntropyCriterion__name__) o bl])).
Proof.
  intros Hex Hload Hm Ho Hbl Hep Hbo Hvl Hh Hx Hml Hol Hname.
  destruct (optim_entry_lookups (VStr CrossEntropyCriterion__name__) o bl)
    as (entry & Hentry & Hcn & Heo & Heb).
  rewrite Hentry. rewrite <- Hname in Hcn.
  refine (load_state_match filename criterion cuda_device e s _ weights m'
            [VDict entry] entry (extra_state_record ep bo vl) o bl opt'
            (Ok (extra_state_record ep bo vl))
            Hex Hload (upgrade_state_dict_v1_result s o bl ep bo vl Ho Hbl Hep Hbo Hvl Hh Hx)
            _ Hml _ eq_refl Hcn Heo Hol Heb _).
  - lookup_solve.
  - rewrite <- Hentry. lookup_solve.
  - unfold lookup_key. now rewrite !lookup_delete_ne, lookup_insert_eq by discriminate.
Qed.

(** X8. A snapshot whose optimizer history is the empty list makes
    [load_state] raise [IndexError]; by then the model weights have been
    loaded, while optimizer and scheduler are as the caller supplied them. *)
Theorem load_state_empty_history (filename : string) (criterion : Criterion)
    (cuda_device : option Z) (e : env) (state state' : dict) (weights : value)
    (m' : Model) :
  os_path_exists filename (w_disk (e_world e)) = true ->
  torch_load filename (restore_location cuda_device) (w_disk (e_world e)) = Ok state ->
  _upgrade_state_dict state = (state', Ok tt) ->
  state' !! "model" = Some weights ->
  model_load_state_dict weights (e_model e) = (m', Ok tt) ->
  state' !! "optimizer_history" = Some (VList []) ->
  load_state filename criterion cuda_device e
  = (Env (loaded_world filename (e_world e)) m' (e_optimizer e) (e_lr_scheduler e),
     Raise (IndexError "list index out of range")).
Proof.
  intros Hex Hload Hup Hm Hml Hh. unfold load_state.
  step_ok ltac:(apply on_world_path_exists). rewrite Hex. simpl negb. cbv iota.
  step_ok ltac:(rewrite on_world_load; env_simpl; rewrite Hload; reflexivity).
  step_ok ltac:(unfold Eff.lift, upgraded; rewrite Hup; reflexivity).
  step_ok ltac:(unfold Eff.lift, lookup_key; rewrite Hm; reflexivity).
  step_ok ltac:(unfold on_model, zoom; env_simpl; rewrite Hml; reflexivity).
  step_ok ltac:(unfold Eff.lift, lookup_key; rewrite Hh; reflexivity).
  env_simpl. unfold loaded_world. rewrite <- app_assoc. reflexivity.
Qed.

(** X9. A snapshot that has a history but neither [epoch] nor [extra_state]
    stays without [extra_state] after the upgrade: [load_state] raises
    [KeyError] for it only at its last line, after the model weights, the
    optimizer state and the scheduler's best loss have all been overwritten. *)
Theorem load_state_missing_extra_state (filename : string) (criterion : Criterion)
    (cuda_device : option Z) (e : env) (state : dict) (weights : value)
    (m' : Model) (history : list value) (entry : dict) (o b : value) (opt' : Optimizer) :
  os_path_exists filename (w_disk (e_world e)) = true ->
  torch_load filename (restore_location cuda_device) (w_disk (e_world e)) = Ok state ->
  state !! "epoch" = None ->
  state !! "extra_state" = None ->
  state !! "model" = Some weights ->
  model_load_state_dict weights (e_model e) = (m', Ok tt) ->
  state !! "optimizer_history" = Some (VList history) ->
  last history = Some (VDict entry) ->
  entry !! "criterion_name" = Some (VStr (class_name criterion)) ->
  entry !! "optimizer" = Some o ->
  optimizer_load_state_dict o (e_optimizer e) = (opt', Ok tt) ->
  entry !! "best_loss" = Some b ->
  load_state filename criterion cuda_device e
  = (Env (loaded_world filename (e_world e)) m' opt' {| best := b |},
     Raise (KeyError "extra_state")).
Proof.
  intros Hex Hload Hep Hx Hm Hml Hh Hlast Hcn Ho Hol Hb.
  assert (Hup : _upgrade_state_dict state = (state, Ok tt)).
  { unfold _upgrade_state_dict.
    rewrite (bind_ok _ _ _ _ _ (upgrade_optimizer_history_skip _ (mk_is_Some _ _ Hh))).
    unfold upgrade_extra_state, Eff.bind, contains, Eff.ret.
    now rewrite (is_None_false _ Hep). }
  refine (load_state_match filename criterion cuda_device e state state weights m'
            history entry VNone o b opt' (Raise (KeyError "extra_state"))
            Hex Hload Hup Hm Hml Hh Hlast Hcn Ho Hol Hb _).
  unfold lookup_key. now rewrite Hx.
Qed.

(** X10. [load_state] only reads: whatever the file holds and however the
    call ends, the disk is as before, no record is logged, and the trace
    grows by the existence test alone or by that test and one load, both of
    [filename]. *)
Theorem load_state_read_only (filename : string) (criterion : Criterion)
    (cuda_device : option Z) (e : env) :
  let w' := e_world (fst (load_state filename criterion cuda_device e)) in
  w_disk w' = w_disk (e_world e)
  /\ logged (w_trace w') = logged (w_trace (e_world e))
  /\ (w_trace w' = w_trace (e_world e) ++ [EvExists filename]
      \/ w_trace w' = w_trace (e_world e) ++ [EvExists filename; EvLoad filename]).
Proof.
  assert (W : e_world (fst (load_state filename criterion cuda_device e))
              = World (w_disk (e_world e)) (w_trace (e_world e) ++ [EvExists filename])
              \/ e_world (fst (load_state filename criterion cuda_device e))
                 = loaded_world filename (e_world e)).
  { unfold load_state.
    rewrite (bind_ok _ _ _ _ _ (on_world_path_exists filename e)).
    destruct (os_path_exists filename (w_disk (e_world e))); cbn [negb].
    - right.
      pose proof (on_world_load filename (restore_location cuda_device)
                    (Env (World (w_disk (e_world e))
                                (w_trace (e_world e) ++ [EvExists filename]))
                         (e_model e) (e_optimizer e) (e_lr_scheduler e))) as L.
      cbn [e_world e_model e_optimizer e_lr_scheduler w_disk w_trace] in L.
      rewrite <- app_assoc in L. cbn [app] in L.
      destruct (torch_load filename (restore_location cuda_device) (w_disk (e_world e)))
        as [state|ex].
      + rewrite (bind_ok _ _ _ _ _ L).
        match goal with
        | |- e_world (fst (?k ?e1)) = _ =>
            assert (K : keeps_world k); [|rewrite (K e1)]
        end.
        * repeat first [ apply keeps_world_bind; [|intros ?]
                       | apply keeps_world_lift
                       | apply keeps_world_on_model
                       | apply keeps_world_on_optimizer
                       | apply keeps_world_set_best
                       | apply keeps_world_ret
                       | match goal with
                         | |- keeps_world (if ?b then _ else _) => destruct b
                         end ].
        * reflexivity.
      + rewrite (bind_raise _ _ _ _ _ L). reflexivity.
    - left. reflexivity. }
  cbv zeta. destruct W as [-> | ->]; env_simpl; unfold loaded_world; env_simpl.
  - split; [reflexivity|]. split; [|now left].
    unfold logged. rewrite omap_app. simpl. apply app_nil_r.
  - split; [reflexivity|]. split; [|now right].
    unfold logged. rewrite omap_app. simpl. apply app_nil_r.
Qed.

End LoadingEdges.

(** *** Witnesses on the in-memory disk *)

Lemma save_state_load_state_round_trip_witness :
  exists w1 : @world mem_torch,
    @save_state mem_torch toy_collaborators "ckpt.pt" (VBlob 9) (VBlob 10)
      {| class_name := "A" |} (VBlob 11) {| best := VBlob 12 |} None None
      (@World mem_torch ∅ []) = (w1, Ok tt)
    /\ @load_state mem_torch toy_collaborators "ckpt.pt" {| class_name := "A" |} None
         (@Env mem_torch toy_collaborators w1 (VBlob 100) (VBlob 101) {| best := VBlob 102 |})
       = (@Env mem_torch toy_collaborators (@loaded_world mem_torch "ckpt.pt" w1)
            (VBlob 10) (VBlob 11) {| best := VBlob 12 |},
          Ok (VDict ∅, VList [optim_entry (VStr "A") (VBlob 11) (VBlob 12)])).
Proof.
  exact (@save_state_load_state_round_trip mem_torch toy_collaborators "ckpt.pt"
           (VBlob 9) (VBlob 10) {| class_name := "A" |} {| class_name := "A" |}
           (VBlob 11) {| best := VBlob 12 |} None None None (@World mem_torch ∅ [])
           (<["ckpt.pt" := snapshot_example]> ∅)
           (VBlob 100) (VBlob 10) (VBlob 101) (VBlob 11) {| best := VBlob 102 |}
           eq_refl eq_refl eq_refl eq_refl eq_refl eq_refl).
Defined.

Lemma load_state_legacy_witness :
  @load_state mem_torch toy_collaborators "legacy.pt"
    {| class_name := "CrossEntropyCriterion" |} None (env_with "legacy.pt" v1_example)
  = (@Env mem_torch toy_collaborators
       (@loaded_world mem_torch "legacy.pt" (e_world (env_with "legacy.pt" v1_example)))
       (VBlob 1) (VBlob 2) {| best := VBlob 3 |},
     Ok (extra_state_record (VInt 4) (VInt 0) (VBlob 6),
         VList [optim_entry (VStr "CrossEntropyCriterion") (VBlob 2) (VBlob 3)])).
Proof.
  exact (@load_state_legacy mem_torch toy_collaborators "legacy.pt"
           {| class_name := "CrossEntropyCriterion" |} None
           (env_with "legacy.pt" v1_example) v1_example
           (VBlob 1) (VBlob 2) (VBlob 3) (VInt 4) (VInt 0) (VBlob 6) (VBlob 1) (VBlob 2)
           eq_refl eq_refl eq_refl eq_refl eq_refl eq_refl eq_refl eq_refl eq_refl eq_refl
           eq_refl eq_refl eq_refl).
Defined.

Lemma load_state_empty_history_witness :
  @load_state mem_torch toy_collaborators "empty.pt" {| class_name := "A" |} None
    (env_with "empty.pt" checkpoint_no_history)
  = (@Env mem_torch toy_collaborators
       (@loaded_world mem_torch "empty.pt"
          (e_world (env_with "empty.pt" checkpoint_no_history)))
       (VBlob 0) (VBlob 101) {| best := VBlob 102 |},
     Raise (IndexError "list index out of range")).
Proof.
  exact (@load_state_empty_history mem_torch toy_collaborators "empty.pt"
           {| class_name := "A" |} None (env_with "empty.pt" checkpoint_no_history)
           checkpoint_no_history checkpoint_no_history (VBlob 0) (VBlob 0)
           eq_refl eq_refl eq_refl eq_refl eq_refl eq_refl).
Defined.

Lemma load_state_missing_extra_state_witness :
  @load_state mem_torch toy_collaborators "bare.pt" {| class_name := "A" |} None
    (env_with "bare.pt" checkpoint_no_extra)
  = (@Env mem_torch toy_collaborators
       (@loaded_world mem_torch "bare.pt" (e_world (env_with "bare.pt" checkpoint_no_extra)))
       (VBlob 0) (VBlob 1) {| best := VBlob 2 |},
     Raise (KeyError "extra_state")).
Proof.
  exact (@load_state_missing_extra_state mem_torch toy_collaborators "bare.pt"
           {| class_name := "A" |} None (env_with "bare.pt" checkpoint_no_extra)
           checkpoint_no_extra (VBlob 0) (VBlob 0)
           [optim_entry (VStr "A") (VBlob 1) (VBlob 2)]
           (<["best_loss" := VBlob 2]>
              (<["optimizer" := VBlob 1]> (<["criterion_name" := VStr "A"]> ∅)))
           (VBlob 1) (VBlob 2) (VBlob 1)
           eq_refl eq_refl eq_refl eq_refl eq_refl eq_refl eq_refl eq_refl eq_refl eq_refl
           eq_refl eq_refl).
Defined.

(** ** Ensembles: what is read of the snapshots *)

Section EnsembleEdges.
Context `{Torch} `{Collaborators}.

(** The second loop reads nothing of a snapshot but its [model]. *)
Lemma build_ensemble_models (args : value) (src_dict dst_dict : Dictionary)
    (states states' : list dict) :
  Forall2 (fun s s' : dict => s !! "model" = s' !! "model") states states' ->
  forall ensemble,
    build_ensemble args src_dict dst_dict states ensemble
    = build_ensemble args src_dict dst_dict states' ensemble.
Proof.
  induction 1 as [|s s' states states' Hm _ IH]; intros ensemble; [reflexivity|].
  cbn [build_ensemble]. destruct (build_model args src_dict dst_dict) as [model|e];
    [|reflexivity].
  unfold lookup_key. rewrite Hm. destruct (s' !! "model") as [weights|]; [|reflexivity].
  destruct (model_load_state_dict weights model) as [model' [[]|e]]; [|reflexivity].
  apply IH.
Qed.

Lemma load_ensemble_loaded (filenames : list string) (src_dict dst_dict : Dictionary)
    (w : world) (first : dict) (others : list dict) (args : value) :
  Forall2 (loads (w_disk w)) filenames (first :: others) ->
  first !! "args" = Some args ->
  load_ensemble_for_inference filenames src_dict dst_dict w
  = (World (w_disk w) (w_trace w ++ visited filenames),
     build_ensemble args src_dict dst_dict (first :: others) []).
Proof.
  intros HF Hargs. unfold load_ensemble_for_inference.
  rewrite (bind_ok _ _ _ _ _ (load_states_ok filenames [] w _ HF)).
  cbn [app]. step_ok ltac:(reflexivity).
  step_ok ltac:(unfold Eff.lift, lookup_key; rewrite Hargs; reflexivity).
  reflexivity.
Qed.

(** X11. The ensemble depends on the snapshots only through the [args] of
    the first one and the [model] of each: two disks whose snapshots agree on
    these give the same ensemble or the same exception, whatever [args] and
    other fields the later snapshots carry. *)
Theorem load_ensemble_reads_first_args (filenames : list string)
    (src_dict dst_dict : Dictionary) (w w' : world) (first first' : dict)
    (others others' : list dict) (args : value) :
  Forall2 (loads (w_disk w)) filenames (first :: others) ->
  Forall2 (loads (w_disk w')) filenames (first' :: others') ->
  first !! "args" = Some args ->
  first' !! "args" = Some args ->
  Forall2 (fun s s' : dict => s !! "model" = s' !! "model")
          (first :: others) (first' :: others') ->
  snd (load_ensemble_for_inference filenames src_dict dst_dict w)
  = snd (load_ensemble_for_inference filenames src_dict dst_dict w').
Proof.
  intros HF HF' Ha Ha' Hm.
  rewrite (load_ensemble_loaded _ _ _ _ _ _ _ HF Ha).
  rewrite (load_ensemble_loaded _ _ _ _ _ _ _ HF' Ha').
  cbn [snd]. now apply build_ensemble_models.
Qed.

(** X12. When all the paths load but the first snapshot has no [args], the
    ensemble load raises [KeyError] for it; this happens only after every
    path has been tested and read. *)
Theorem load_ensemble_missing_args (filenames : list string)
    (src_dict dst_dict : Dictionary) (w : world) (first : dict) (others : list dict) :
  Forall2 (loads (w_disk w)) filenames (first :: others) ->
  first !! "args" = None ->
  load_ensemble_for_inference filenames src_dict dst_dict w
  = (World (w_disk w) (w_trace w ++ visited filenames), Raise (KeyError "args")).
Proof.
  intros HF Hargs. unfold load_ensemble_for_inference.
  rewrite (bind_ok _ _ _ _ _ (load_states_ok filenames [] w _ HF)).
  cbn [app]. step_ok ltac:(reflexivity).
  apply bind_raise. unfold Eff.lift, lookup_key. now rewrite Hargs.
Qed.

End EnsembleEdges.

(** ** Padding *)

Lemma count_pad_app (t1 t2 : list Z) (pad : Z) :
  count_pad (t1 ++ t2) pad = count_pad t1 pad + count_pad t2 pad.
Proof. unfold count_pad. now rewrite List.filter_app, length_app. Qed.

Lemma count_pad_replicate (n : nat) (pad : Z) : count_pad (replicate n pad) pad = n.
Proof.
  unfold count_pad. induction n as [|n IH]; simpl; [reflexivity|].
  rewrite Z.eqb_refl. simpl. now rewrite IH.
Qed.

Lemma count_pad_absent (t : list Z) (pad : Z) : pad ∉ t -> count_pad t pad = 0.
Proof.
  unfold count_pad. induction t as [|x t IH]; intros Hn; simpl; [reflexivity|].
  apply not_elem_of_cons in Hn as [Hne Hn].
  destruct (Z.eqb_spec pad x) as [->|_]; [contradiction|]. now apply IH.
Qed.

Lemma count_pad_le (t : list Z) (pad : Z) : count_pad t pad <= length t.
Proof. unfold count_pad. apply List.filter_length_le. Qed.

Lemma count_pad_rev (t : list Z) (pad : Z) : count_pad (rev t) pad = count_pad t pad.
Proof.
  induction t as [|x t IH]; [reflexivity|].
  simpl rev. rewrite count_pad_app, IH.
  change (x :: t) with ([x] ++ t). rewrite count_pad_app. lia.
Qed.

(** X13. On a tensor padded on the left only, [lstrip_pad] removes the
    padding and nothing else; on a tensor padded on the right only,
    [rstrip_pad] does. *)
Theorem strip_pad_padded (n : nat) (body : list Z) (pad : Z) :
  pad ∉ body ->
  lstrip_pad (replicate n pad ++ body) pad = body
  /\ rstrip_pad (body ++ replicate n pad) pad = body.
Proof.
  intros Hn. split.
  - unfold lstrip_pad.
    rewrite count_pad_app, count_pad_replicate, (count_pad_absent _ _ Hn), Nat.add_0_r.
    rewrite drop_app_length'; [reflexivity|symmetry; apply length_replicate].
  - unfold rstrip_pad.
    rewrite count_pad_app, count_pad_replicate, (count_pad_absent _ _ Hn), Nat.add_0_l.
    destruct n as [|n]; simpl Nat.ltb; cbv iota.
    + simpl. apply app_nil_r.
    + rewrite length_app, length_replicate.
      replace (length body + S n - S n) with (length body) by lia.
      now rewrite take_app_length.
Qed.

Lemma strip_pad_padded_witness :
  lstrip_pad (replicate 2 1%Z ++ [5; 7; 2]%Z) 1%Z = [5; 7; 2]%Z
  /\ rstrip_pad ([5; 7; 2]%Z ++ replicate 2 1%Z) 1%Z = [5; 7; 2]%Z.
Proof.
  apply (strip_pad_padded 2 [5; 7; 2]%Z 1%Z).
  intros Hin. repeat (apply elem_of_cons in Hin as [Hin|Hin]; [discriminate|]).
  now apply elem_of_nil in Hin.
Defined.

(** X14. Both functions remove as many items as the tensor holds pads,
    wherever these are: the results have the length of the tensor less its
    number of pads, and [rstrip_pad] is [lstrip_pad] seen from the other
    end. *)
Theorem strip_pad_length (t : list Z) (pad : Z) :
  length (lstrip_pad t pad) = length t - count_pad t pad
  /\ length (rstrip_pad t pad) = length t - count_pad t pad
  /\ rstrip_pad t pad = rev (lstrip_pad (rev t) pad).
Proof.
  pose proof (count_pad_le t pad) as Hle.
  assert (R : rstrip_pad t pad = take (length t - count_pad t pad) t).
  { unfold rstrip_pad. destruct (count_pad t pad) as [|c]; simpl Nat.ltb; cbv iota.
    - rewrite Nat.sub_0_r. now rewrite firstn_all.
    - reflexivity. }
  split; [|split].
  - unfold lstrip_pad. apply length_drop.
  - rewrite R, length_take. lia.
  - rewrite R. unfold lstrip_pad. rewrite count_pad_rev.
    rewrite List.skipn_rev. now rewrite List.rev_involutive.
Qed.

(** X15. The pads are counted, not located: on a tensor padded on the right,
    [lstrip_pad] keeps the padding and drops as many items from the front of
    the body instead. *)
Theorem lstrip_pad_right_padded (n : nat) (body : list Z) (pad : Z) :
  pad ∉ body ->
  n <= length body ->
  lstrip_pad (body ++ replicate n pad) pad = drop n body ++ replicate n pad.
Proof.
  intros Hn Hle. unfold lstrip_pad.
  rewrite count_pad_app, count_pad_replicate, (count_pad_absent _ _ Hn), Nat.add_0_l.
  rewrite drop_app_le by exact Hle. reflexivity.
Qed.

Lemma lstrip_pad_right_padded_witness :
  lstrip_pad ([5; 7; 2]%Z ++ replicate 2 1%Z) 1%Z = [2; 1; 1]%Z.
Proof.
  apply (lstrip_pad_right_padded 2 [5; 7; 2]%Z 1%Z); [|simpl; lia].
  intros Hin. repeat (apply elem_of_cons in Hin as [Hin|Hin]; [discriminate|]).
  now apply elem_of_nil in Hin.
Defined.

(** ** Embedding files: malformed lines, keys, silence *)

Lemma split_space_none (line : string) :
  occurs SPACE line = false -> split_space line = None.
Proof.
  induction line as [|c line IH]; simpl; intros Hl; [reflexivity|].
  apply orb_false_iff in Hl as [Hc Hl]. now rewrite Hc, (IH Hl).
Qed.

Lemma dict_set_keys {V} (k : string) (v : V) (d : table V) :
  forall k', k' ∈ map fst (dict_set k v d) <-> k' = k \/ k' ∈ map fst d.
Proof.
  induction d as [|[k0 v0] d IH]; intros k'; simpl.
  - rewrite list_elem_of_singleton. split; [now left|]. intros [->|Hin]; [reflexivity|].
    now apply elem_of_nil in Hin.
  - destruct (String.eqb k k0) eqn:E; simpl.
    + apply String.eqb_eq in E as <-. rewrite !elem_of_cons. tauto.
    + rewrite !elem_of_cons, IH. tauto.
Qed.

Lemma dict_set_NoDup {V} (k : string) (v : V) (d : table V) :
  NoDup (map fst d) -> NoDup (map fst (dict_set k v d)).
Proof.
  induction d as [|[k0 v0] d IH]; simpl; intros Hd.
  - apply NoDup_singleton.
  - apply NoDup_cons in Hd as [Hn Hd].
    destruct (String.eqb k k0) eqn:E; simpl.
    + apply String.eqb_eq in E as <-. now apply NoDup_cons.
    + apply NoDup_cons. split; [|now apply IH].
      rewrite dict_set_keys. intros [->|Hin]; [|contradiction].
      now rewrite String.eqb_refl in E.
Qed.

Lemma dict_set_length {V} (k : string) (v : V) (d : table V) :
  length (dict_set k v d) <= S (length d).
Proof.
  induction d as [|[k0 v0] d IH]; simpl; [lia|].
  destruct (String.eqb k k0); simpl; lia.
Qed.

Lemma dict_set_Forall {V} (P : V -> Prop) (k : string) (v : V) (d : table V) :
  P v -> Forall (fun kv => P (snd kv)) d -> Forall (fun kv => P (snd kv)) (dict_set k v d).
Proof.
  intros Hv. induction 1 as [|[k0 v0] d H0 Hd IH]; simpl.
  - now repeat constructor.
  - destruct (String.eqb k k0); constructor; assumption.
Qed.

Lemma dimension_report_uniform {V} (items : table (list V)) (n : nat) :
  Forall (fun kv => length (snd kv) = n) items -> dimension_report items n = [].
Proof.
  unfold dimension_report. induction 1 as [|kv items Hkv _ IH]; simpl; [reflexivity|].
  rewrite Hkv, Nat.eqb_refl. simpl. exact IH.
Qed.

Section EmbeddingEdges.
Context `{Numpy}.

Lemma parse_lines_without_space (good : list string) (rows : list (string * string)) :
  Forall2 splits_as good rows ->
  forall (bad : string) (rest : list string) (i : nat) d (word : option string),
    occurs SPACE bad = false ->
    parse_lines (S i) (good ++ bad :: rest) d word
    = Raise (ValueError "not enough values to unpack (expected 2, got 1)").
Proof.
  induction 1 as [|line [w vec] good rows [Hl Hw] _ IH]; intros bad rest i d word Hbad.
  - cbn [app parse_lines Nat.eqb]. now rewrite (split_space_none _ Hbad).
  - simpl in Hl, Hw. cbn [app parse_lines Nat.eqb].
    rewrite Hl, (split_space_spec _ _ Hw). now apply IH.
Qed.

(** X16. A line after the header that has no space character (a blank line
    at the end of the file, for one) makes the parser raise [ValueError] at
    that line: no table is returned, whatever the lines before it held, and
    nothing is printed. *)
Theorem parse_embedding_line_without_space (content header : string)
    (good : list string) (rows : list (string * string)) (bad : string)
    (rest : list string) (out : list (nat * nat)) :
  file_lines content = header :: good ++ bad :: rest ->
  Forall2 splits_as good rows ->
  occurs SPACE bad = false ->
  parse_embedding content out
  = (out, Raise (ValueError "not enough values to unpack (expected 2, got 1)")).
Proof.
  intros Hfl HF Hbad. unfold parse_embedding. rewrite Hfl.
  cbn [parse_lines Nat.eqb].
  now rewrite (parse_lines_without_space good rows HF bad rest _ _ _ Hbad).
Qed.

Lemma fold_add_row_keys (rows : list (string * string)) :
  forall d : table (list float64),
    NoDup (map fst d) ->
    NoDup (map fst (fold_left add_row rows d))
    /\ length (fold_left add_row rows d) <= length d + length rows
    /\ forall k, k ∈ map fst (fold_left add_row rows d)
                 <-> k ∈ map fst d \/ k ∈ map fst rows.
Proof.
  induction rows as [|[w vec] rows IH]; intros d Hd; cbn [fold_left].
  - split; [exact Hd|]. split; [simpl; lia|]. intros k. simpl.
    rewrite elem_of_nil. tauto.
  - destruct (IH (add_row d (w, vec))) as (Hnd & Hlen & Hkeys).
    { unfold add_row. now apply dict_set_NoDup. }
    split; [exact Hnd|]. split.
    + pose proof (dict_set_length w (np_fromstring vec) d) as L.
      change (dict_set w (np_fromstring vec) d) with (add_row d (w, vec)) in L.
      cbn [length]. lia.
    + intros k. rewrite Hkeys. unfold add_row. cbn [fst snd map].
      rewrite dict_set_keys, elem_of_cons. tauto.
Qed.

(** X17. The table returned has one entry per distinct key: its keys are
    exactly the texts before the first space of the data lines, none twice,
    so it never has more entries than the file has data lines. *)
Theorem parse_embedding_keys (content header : string) (lines : list string)
    (rows : list (string * string)) (out : list (nat * nat)) :
  file_lines content = header :: lines ->
  rows <> [] ->
  Forall2 splits_as lines rows ->
  exists items : table (list float64),
    snd (parse_embedding content out) = Ok items
    /\ NoDup (map fst items)
    /\ length items <= length lines
    /\ forall k, k ∈ map fst items <-> k ∈ map fst rows.
Proof.
  intros Hfl Hne HF.
  destruct (last rows) as [[w vec]|] eqn:Hlast; [|apply last_None in Hlast; contradiction].
  exists (fold_left add_row rows []).
  rewrite (parse_embedding_rows _ _ _ _ _ _ out Hfl HF Hlast).
  destruct (fold_add_row_keys rows [] NoDup_nil_2) as (Hnd & Hlen & Hkeys).
  split; [reflexivity|]. split; [exact Hnd|]. split.
  - rewrite (Forall2_length _ _ _ HF). simpl in Hlen. exact Hlen.
  - intros k. rewrite Hkeys. simpl. rewrite elem_of_nil. tauto.
Qed.

Lemma fold_add_row_Forall (n : nat) (rows : list (string * string)) :
  Forall (fun row => length (np_fromstring (snd row)) = n) rows ->
  forall d : table (list float64),
    Forall (fun kv => length (snd kv) = n) d ->
    Forall (fun kv => length (snd kv) = n) (fold_left add_row rows d).
Proof.
  induction 1 as [|[w vec] rows Hrow _ IH]; intros d Hd; cbn [fold_left]; [exact Hd|].
  apply IH. unfold add_row. now apply (dict_set_Forall (fun v => length v = n)).
Qed.

(** X18. When the vectors of all the data lines have the same length, the
    parser prints nothing and returns the table. *)
Theorem parse_embedding_uniform (content header : string) (lines : list string)
    (rows : list (string * string)) (n : nat) (out : list (nat * nat)) :
  file_lines content = header :: lines ->
  rows <> [] ->
  Forall2 splits_as lines rows ->
  Forall (fun row => length (np_fromstring (snd row)) = n) rows ->
  parse_embedding content out = (out, Ok (fold_left add_row rows [])).
Proof.
  intros Hfl Hne HF Hn.
  destruct (last rows) as [[w vec]|] eqn:Hlast; [|apply last_None in Hlast; contradiction].
  rewrite (parse_embedding_rows _ _ _ _ _ _ out Hfl HF Hlast).
  assert (Hvec : length (np_fromstring vec) = n).
  { apply last_Some in Hlast as [pre ->].
    apply Forall_app in Hn as [_ Hn]. now apply Forall_inv in Hn. }
  rewrite Hvec, (dimension_report_uniform _ n), app_nil_r; [reflexivity|].
  apply fold_add_row_Forall; [exact Hn|constructor].
Qed.

End EmbeddingEdges.

(** ** Vocabulary overlap *)

Lemma size_list_to_set_le (l : list string) :
  size (list_to_set l : gset string) <= length l.
Proof.
  induction l as [|x l IH]; cbn [length].
  - rewrite list_to_set_nil, size_empty. lia.
  - rewrite list_to_set_cons, size_union_alt, size_singleton.
    pose proof (subseteq_size (list_to_set l ∖ {[x]}) (list_to_set l : gset string)) as S.
    assert (list_to_set l ∖ {[x]} ⊆ (list_to_set l : gset string)) as Hs by set_solver.
    specialize (S Hs). lia.
Qed.

(** X19. For a table without repeated keys, as the parser builds them,
    [print_embed_overlap] prints the number of table keys that are symbols of
    the vocabulary, each counted once however often the vocabulary lists it,
    together with the size of the vocabulary; the number is at most the size
    of the table and at most the size of the vocabulary. *)
Theorem print_embed_overlap_count {V} (embed_dict : table V) (vocab_dict : Vocabulary)
    (out : list (nat * nat)) :
  NoDup (map fst embed_dict) ->
  exists overlap : nat,
    print_embed_overlap embed_dict vocab_dict out
    = (out ++ [(overlap, length (symbols vocab_dict))], Ok tt)
    /\ overlap = length (filter (fun k => k ∈ symbols vocab_dict) (map fst embed_dict))
    /\ overlap <= length embed_dict
    /\ overlap <= length (symbols vocab_dict).
Proof.
  intros Hnd. exists (embed_overlap embed_dict vocab_dict).
  split; [reflexivity|].
  assert (E : embed_overlap embed_dict vocab_dict
              = length (filter (fun k => k ∈ symbols vocab_dict) (map fst embed_dict))).
  { unfold embed_overlap.
    rewrite <- (size_list_to_set (C := gset string)
                  (filter (fun k => k ∈ symbols vocab_dict) (map fst embed_dict)))
      by (now apply NoDup_filter).
    f_equal. apply set_eq. intros k.
    rewrite elem_of_intersection, !elem_of_list_to_set, list_elem_of_filter. tauto. }
  split; [exact E|]. split.
  - rewrite E. etransitivity; [apply length_filter|]. now rewrite length_map.
  - unfold embed_overlap.
    etransitivity; [|apply (size_list_to_set_le (symbols vocab_dict))].
    apply subseteq_size. set_solver.
Qed.

(** ** Splicing a table into an embedding matrix *)

Lemma assign_row_length {F G} (cast : F -> G) (idx : nat) (v : list F)
    (weight weight' : list (list G)) :
  assign_row cast idx v weight = Ok weight' -> length weight' = length weight.
Proof.
  unfold assign_row. destruct (weight !! idx) as [row|]; [|discriminate].
  destruct (Nat.eqb (length v) (length row)).
  - intros [= <-]. apply length_insert.
  - destruct v as [|x [|y v]]; try discriminate. intros [= <-]. apply length_insert.
Qed.

Lemma vocab_getitem_symbol (vocab : Vocabulary) (idx : nat) (tok : string) :
  symbols vocab !! idx = Some tok -> vocab_getitem vocab idx = tok.
Proof. intros E. unfold vocab_getitem. now rewrite E. Qed.

Lemma load_embedding_loop_spec {F G} (cast : F -> G) (embed_dict : table (list F))
    (vocab : Vocabulary) (range : list nat) :
  forall weight : list (list G),
    NoDup range ->
    (forall idx v, idx ∈ range ->
                   dict_get (vocab_getitem vocab idx) embed_dict = Some v ->
                   exists row, weight !! idx = Some row /\ length v = length row) ->
    exists weight' : list (list G),
      load_embedding_loop cast embed_dict vocab range weight = Ok weight'
      /\ length weight' = length weight
      /\ forall idx,
           weight' !! idx
           = if decide (idx ∈ range)
             then match dict_get (vocab_getitem vocab idx) embed_dict with
                  | Some v => Some (map cast v)
                  | None => weight !! idx
                  end
             else weight !! idx.
Proof.
  induction range as [|idx0 range IH]; intros weight Hnd Hrows.
  - exists weight. split; [reflexivity|]. split; [reflexivity|].
    intros idx. destruct (decide (idx ∈ [])) as [Hin|_];
      [now apply elem_of_nil in Hin|reflexivity].
  - apply NoDup_cons in Hnd as [Hn0 Hnd]. cbn [load_embedding_loop].
    destruct (dict_get (vocab_getitem vocab idx0) embed_dict) as [v|] eqn:Hget.
    + destruct (Hrows idx0 v (list_elem_of_here _ _) Hget) as (row & Hrow & Hlen).
      unfold assign_row. rewrite Hrow, Hlen, Nat.eqb_refl.
      destruct (IH (<[idx0 := map cast v]> weight) Hnd) as (weight' & Hrun & Hl & Hlook).
      { intros idx v' Hin Hv'.
        rewrite list_lookup_insert_ne by (intros ->; contradiction).
        apply (Hrows idx v'); [now apply list_elem_of_further|exact Hv']. }
      exists weight'. split; [exact Hrun|]. split; [now rewrite Hl, length_insert|].
      intros idx. rewrite Hlook.
      destruct (decide (idx = idx0)) as [->|Hne].
      * destruct (decide (idx0 ∈ range)) as [|_]; [contradiction|].
        destruct (decide (idx0 ∈ idx0 :: range)) as [_|Hout];
          [|exfalso; apply Hout; apply list_elem_of_here].
        rewrite Hget. apply list_lookup_insert_eq. now apply lookup_lt_Some in Hrow.
      * rewrite list_lookup_insert_ne by congruence.
        destruct (decide (idx ∈ range)) as [Hin|Hout];
          destruct (decide (idx ∈ idx0 :: range)) as [Hin'|Hout']; try reflexivity.
        -- exfalso. apply Hout'. now apply list_elem_of_further.
        -- apply elem_of_cons in Hin' as [->|Hin']; contradiction.
    + destruct (IH weight Hnd) as (weight' & Hrun & Hl & Hlook).
      { intros idx v' Hin Hv'.
        apply (Hrows idx v'); [now apply list_elem_of_further|exact Hv']. }
      exists weight'. split; [exact Hrun|]. split; [exact Hl|].
      intros idx. rewrite Hlook.
      destruct (decide (idx = idx0)) as [->|Hne].
      * destruct (decide (idx0 ∈ range)) as [|_]; [contradiction|].
        destruct (decide (idx0 ∈ idx0 :: range)) as [_|Hout];
          [|exfalso; apply Hout; apply list_elem_of_here].
        now rewrite Hget.
      * destruct (decide (idx ∈ range)) as [Hin|Hout];
          destruct (decide (idx ∈ idx0 :: range)) as [Hin'|Hout']; try reflexivity.
        -- exfalso. apply Hout'. now apply list_elem_of_further.
        -- apply elem_of_cons in Hin' as [->|Hin']; contradiction.
Qed.

(** X20. Splice: when every vocabulary token found in the table sits at a
    row of the matrix that has the length of its vector, [load_embedding]
    succeeds, keeps the number of rows, overwrites the row of each such
    token with its vector (converted to the type of the matrix) and leaves
    every other row as it was. *)
Theorem load_embedding_rows {F G} (cast : F -> G) (embed_dict : table (list F))
    (vocab : Vocabulary) (weight : list (list G)) :
  (forall idx tok v,
      symbols vocab !! idx = Some tok ->
      dict_get tok embed_dict = Some v ->
      exists row, weight !! idx = Some row /\ length v = length row) ->
  exists weight' : list (list G),
    load_embedding cast embed_dict vocab weight = Ok weight'
    /\ length weight' = length weight
    /\ forall idx,
         weight' !! idx
         = match symbols vocab !! idx with
           | Some tok =>
               match dict_get tok embed_dict with
               | Some v => Some (map cast v)
               | None => weight !! idx
               end
           | None => weight !! idx
           end.
Proof.
  intros Hrows. unfold load_embedding, vocab_len.
  destruct (load_embedding_loop_spec cast embed_dict vocab
              (seq 0 (length (symbols vocab))) weight (NoDup_seq _ _))
    as (weight' & Hrun & Hl & Hlook).
  { intros idx v Hin Hget. apply elem_of_seq in Hin as [_ Hlt]. simpl in Hlt.
    destruct (lookup_lt_is_Some_2 (symbols vocab) idx Hlt) as [tok Htok].
    rewrite (vocab_getitem_symbol _ _ _ Htok) in Hget. exact (Hrows idx tok v Htok Hget). }
  exists weight'. split; [exact Hrun|]. split; [exact Hl|].
  intros idx. rewrite Hlook.
  destruct (symbols vocab !! idx) as [tok|] eqn:Htok.
  - rewrite (vocab_getitem_symbol _ _ _ Htok).
    destruct (decide (idx ∈ seq 0 (length (symbols vocab)))) as [_|Hout]; [reflexivity|].
    exfalso. apply Hout. apply elem_of_seq. apply lookup_lt_Some in Htok. lia.
  - destruct (decide (idx ∈ seq 0 (length (symbols vocab)))) as [Hin|_]; [|reflexivity].
    apply elem_of_seq in Hin as [_ Hlt]. apply lookup_ge_None in Htok. simpl in Hlt. lia.
Qed.

(** X21. When no token of the vocabulary is a key of the table, the matrix
    is returned as it is, whatever its shape: no row is read or written. *)
Theorem load_embedding_no_match {F G} (cast : F -> G) (embed_dict : table (list F))
    (vocab : Vocabulary) (weight : list (list G)) :
  (forall tok, tok ∈ symbols vocab -> dict_get tok embed_dict = None) ->
  load_embedding cast embed_dict vocab weight = Ok weight.
Proof.
  intros Hnone.
  destruct (load_embedding_rows cast embed_dict vocab weight) as (weight' & Hrun & _ & Hlook).
  { intros idx tok v Htok Hget.
    rewrite (Hnone tok) in Hget; [discriminate|]. now apply list_elem_of_lookup_2 in Htok. }
  rewrite Hrun. f_equal. apply list_eq. intros idx. rewrite Hlook.
  destruct (symbols vocab !! idx) as [tok|] eqn:Htok; [|reflexivity].
  rewrite (Hnone tok); [reflexivity|]. now apply list_elem_of_lookup_2 in Htok.
Qed.

Lemma load_embedding_loop_out_of_range {F G} (cast : F -> G)
    (embed_dict : table (list F)) (vocab : Vocabulary) (idx : nat) (v : list F)
    (range : list nat) :
  dict_get (vocab_getitem vocab idx) embed_dict = Some v ->
  idx ∈ range ->
  forall weight : list (list G),
    length weight <= idx ->
    exists e, load_embedding_loop cast embed_dict vocab range weight = Raise e
              /\ (exn_class e = "IndexError" \/ exn_class e = "RuntimeError").
Proof.
  intros Hget. induction range as [|idx0 range IH]; intros Hin weight Hlen.
  - now apply elem_of_nil in Hin.
  - cbn [load_embedding_loop].
    destruct (decide (idx0 = idx)) as [->|Hne].
    + rewrite Hget. unfold assign_row. rewrite (lookup_ge_None_2 _ _ Hlen).
      eexists. split; [reflexivity|]. now left.
    + apply elem_of_cons in Hin as [->|Hin]; [contradiction|].
      destruct (dict_get (vocab_getitem vocab idx0) embed_dict) as [v0|]; [|now apply IH].
      destruct (assign_row cast idx0 v0 weight) as [weight'|e] eqn:Ha.
      * apply IH; [exact Hin|]. now rewrite (assign_row_length _ _ _ _ _ Ha).
      * eexists. split; [reflexivity|]. revert Ha. unfold assign_row.
        destruct (weight !! idx0) as [row|]; [|intros [= <-]; now left].
        destruct (Nat.eqb (length v0) (length row)); [discriminate|].
        destruct v0 as [|x [|y v0]]; try discriminate; intros [= <-]; now right.
Qed.

(** X22. A matrix with too few rows is not extended: when a vocabulary token
    found in the table sits at an index past the last row, [load_embedding]
    fails, with the [IndexError] of that row or with the failure of an earlier
    row, and returns no matrix. *)
Theorem load_embedding_out_of_range {F G} (cast : F -> G) (embed_dict : table (list F))
    (vocab : Vocabulary) (weight : list (list G)) (idx : nat) (tok : string)
    (v : list F) :
  symbols vocab !! idx = Some tok ->
  dict_get tok embed_dict = Some v ->
  length weight <= idx ->
  exists e, load_embedding cast embed_dict vocab weight = Raise e
            /\ (exn_class e = "IndexError" \/ exn_class e = "RuntimeError").
Proof.
  intros Htok Hget Hlen. unfold load_embedding, vocab_len.
  apply (load_embedding_loop_out_of_range cast embed_dict vocab idx v).
  - now rewrite (vocab_getitem_symbol _ _ _ Htok).
  - apply elem_of_seq. apply lookup_lt_Some in Htok. lia.
  - exact Hlen.
Qed.

(** ** Samples *)

(** Case analysis on the place of a key in a list of keys given in full. *)
Ltac walk_keys E HF pre :=
  destruct pre as [|? pre]; simpl in E;
  [ injection E as <- <-
  | injection E as <- E; apply Forall_cons in HF as [[? ?] HF];
    try walk_keys E HF pre ].

Section Samples.
Context `{Tensors}.

(** X23. [prepare_sample] reads seven fields of the sample, in the order
    [id], [ntokens], [target], [src_tokens], [src_positions], [input_tokens],
    [input_positions].  It raises [KeyError] for the first of them that is
    missing.  When all are there, the result has exactly four fields: [id]
    and [ntokens] as they were, [target] wrapped, and [net_input] holding the
    four remaining tensors wrapped; any other field of the sample is
    dropped. *)
Theorem prepare_sample_keys (sample : dict) (volatile : bool) (cuda_device : option Z) :
  (forall (pre : list string) (k : string) (post : list string),
      sample_keys = pre ++ k :: post ->
      Forall (fun k' => is_Some (sample !! k')) pre ->
      sample !! k = None ->
      prepare_sample sample volatile cuda_device = Raise (KeyError k))
  /\ (forall id ntokens target src_tokens src_positions input_tokens input_positions : value,
         sample !! "id" = Some id ->
         sample !! "ntokens" = Some ntokens ->
         sample !! "target" = Some target ->
         sample !! "src_tokens" = Some src_tokens ->
         sample !! "src_positions" = Some src_positions ->
         sample !! "input_tokens" = Some input_tokens ->
         sample !! "input_positions" = Some input_positions ->
         prepare_sample sample volatile cuda_device
         = Ok (<["net_input" :=
                   VDict (<["input_positions" :=
                              make_variable volatile cuda_device input_positions]>
                            (<["input_tokens" :=
                                 make_variable volatile cuda_device input_tokens]>
                               (<["src_positions" :=
                                    make_variable volatile cuda_device src_positions]>
                                  (<["src_tokens" :=
                                       make_variable volatile cuda_device src_tokens]> ∅))))]>
                 (<["target" := make_variable volatile cuda_device target]>
                    (<["ntokens" := ntokens]> (<["id" := id]> ∅))))).
Proof.
  split.
  - intros pre k post E HF Hk. unfold sample_keys, net_input_keys in E. simpl in E.
    walk_keys E HF pre;
      try (destruct pre; discriminate);
      unfold prepare_sample, lookup_key; cbn [net_input net_input_keys];
      unfold lookup_key;
      repeat match goal with
             | Hs : sample !! _ = _ |- _ => progress rewrite Hs
             end;
      reflexivity.
  - intros id ntokens target a b c d Hid Hnt Htg Ha Hb Hc Hd.
    unfold prepare_sample, lookup_key. rewrite Hid, Hnt, Htg.
    cbn [net_input net_input_keys]. unfold lookup_key. rewrite Ha, Hb, Hc, Hd.
    reflexivity.
Qed.

End Samples.

(** *** Witnesses for the further properties *)

Lemma load_ensemble_reads_first_args_witness :
  snd (@load_ensemble_for_inference mem_torch toy_collaborators ["m1.pt"; "m2.pt"] tt tt
         world_ensemble)
  = snd (@load_ensemble_for_inference mem_torch toy_collaborators ["m1.pt"; "m2.pt"] tt tt
           (@World mem_torch
              (<["m1.pt" := checkpoint_1]>
                 (<["m2.pt" := <["args" := VBlob 0]> checkpoint_2]> ∅)) [])).
Proof.
  apply (@load_ensemble_reads_first_args mem_torch toy_collaborators ["m1.pt"; "m2.pt"]
           tt tt world_ensemble _ checkpoint_1 checkpoint_1 [checkpoint_2]
           [<["args" := VBlob 0]> checkpoint_2] (VDict (<["model" := VStr "fconv"]> ∅)));
    try reflexivity; repeat constructor.
Defined.

Lemma load_ensemble_missing_args_witness :
  @load_ensemble_for_inference mem_torch toy_collaborators ["bare.pt"] tt tt
    (e_world (env_with "bare.pt" checkpoint_no_extra))
  = (@World mem_torch (<["bare.pt" := checkpoint_no_extra]> ∅)
       [EvExists "bare.pt"; EvLoad "bare.pt"],
     Raise (KeyError "args")).
Proof.
  apply (@load_ensemble_missing_args mem_torch toy_collaborators ["bare.pt"] tt tt
           (e_world (env_with "bare.pt" checkpoint_no_extra)) checkpoint_no_extra []).
  - repeat constructor.
  - reflexivity.
Defined.

Lemma parse_embedding_line_without_space_witness :
  @parse_embedding literal_numpy blank_line_example []
  = ([], Raise (ValueError "not enough values to unpack (expected 2, got 1)")).
Proof.
  apply (@parse_embedding_line_without_space literal_numpy blank_line_example
           ("2 1" +:+ NL) ["a 1" +:+ NL] [("a", "1" +:+ NL)] NL [] [] eq_refl).
  - repeat constructor.
  - reflexivity.
Defined.

Lemma parse_embedding_keys_witness :
  exists items : table (list string),
    snd (@parse_embedding literal_numpy embedding_example []) = Ok items
    /\ NoDup (map fst items)
    /\ length items <= 2
    /\ forall k, k ∈ map fst items <-> k ∈ ["the"; "at"].
Proof.
  apply (@parse_embedding_keys literal_numpy embedding_example ("2 5" +:+ NL)
           ["the -0.1 -0.2 0.3 0.1 0.4" +:+ NL; "at 0.0 0.1 -0.1 0.0 0.2" +:+ NL]
           [("the", "-0.1 -0.2 0.3 0.1 0.4" +:+ NL); ("at", "0.0 0.1 -0.1 0.0 0.2" +:+ NL)]
           [] eq_refl).
  - discriminate.
  - repeat constructor.
Defined.

Lemma parse_embedding_uniform_witness :
  @parse_embedding literal_numpy embedding_example []
  = ([], Ok [("the", ["-0.1"; "-0.2"; "0.3"; "0.1"; "0.4"]);
             ("at", ["0.0"; "0.1"; "-0.1"; "0.0"; "0.2"])]).
Proof.
  apply (@parse_embedding_uniform literal_numpy embedding_example ("2 5" +:+ NL)
           ["the -0.1 -0.2 0.3 0.1 0.4" +:+ NL; "at 0.0 0.1 -0.1 0.0 0.2" +:+ NL]
           [("the", "-0.1 -0.2 0.3 0.1 0.4" +:+ NL); ("at", "0.0 0.1 -0.1 0.0 0.2" +:+ NL)]
           5 [] eq_refl).
  - discriminate.
  - repeat constructor.
  - repeat constructor.
Defined.

Lemma table_example_NoDup : NoDup (map fst table_example).
Proof.
  apply NoDup_cons. split; [|apply NoDup_singleton].
  intros Hin. apply list_elem_of_singleton in Hin. discriminate.
Qed.

Lemma print_embed_overlap_count_witness :
  exists overlap : nat,
    print_embed_overlap table_example vocab_example []
    = ([] ++ [(overlap, 3)], Ok tt)
    /\ overlap = length (filter (fun k => k ∈ symbols vocab_example) (map fst table_example))
    /\ overlap <= 2
    /\ overlap <= 3.
Proof.
  apply (print_embed_overlap_count table_example vocab_example [] table_example_NoDup).
Defined.

Lemma load_embedding_rows_witness :
  exists weight' : list (list string),
    load_embedding id table_example vocab_example weight_example = Ok weight'
    /\ length weight' = 3
    /\ forall idx,
         weight' !! idx
         = match symbols vocab_example !! idx with
           | Some tok =>
               match dict_get tok table_example with
               | Some v => Some (map id v)
               | None => weight_example !! idx
               end
           | None => weight_example !! idx
           end.
Proof.
  apply (load_embedding_rows id table_example vocab_example weight_example).
  intros [|[|[|idx]]] tok v Htok Hget; simpl in Htok; try discriminate;
    injection Htok as <-; simpl in Hget; try discriminate;
    injection Hget as <-; eexists; (split; [reflexivity|reflexivity]).
Defined.

Lemma load_embedding_no_match_witness :
  load_embedding id table_example {| symbols := ["cat"; "dog"]; unk_word := "<unk>" |}
    ([] : list (list string))
  = Ok [].
Proof.
  apply (load_embedding_no_match id table_example).
  intros tok Hin. simpl in Hin.
  apply elem_of_cons in Hin as [->|Hin]; [reflexivity|].
  apply list_elem_of_singleton in Hin as ->. reflexivity.
Defined.

Lemma load_embedding_out_of_range_witness :
  exists e, load_embedding id table_example vocab_example [["r0"; "r0"]] = Raise e
            /\ (exn_class e = "IndexError" \/ exn_class e = "RuntimeError").
Proof.
  apply (load_embedding_out_of_range id table_example vocab_example [["r0"; "r0"]]
           2 "at" ["3"; "4"]); [reflexivity|reflexivity|simpl; lia].
Defined.

Lemma prepare_sample_keys_witness :
  @prepare_sample cpu_tensors (delete "target" sample_example) false (Some 0%Z)
  = Raise (KeyError "target")
  /\ exists r : dict,
       @prepare_sample cpu_tensors sample_example false (Some 0%Z) = Ok r
       /\ r !! "id" = Some (VInt 1)
       /\ r !! "target" = Some (VList [VStr "Variable"; VBlob 2])
       /\ r !! "other" = None.
Proof.
  split.
  - destruct (@prepare_sample_keys cpu_tensors (delete "target" sample_example) false
                (Some 0%Z)) as [Hmissing _].
    apply (Hmissing ["id"; "ntokens"] "target" net_input_keys eq_refl).
    + repeat constructor; eexists; reflexivity.
    + reflexivity.
  - destruct (@prepare_sample_keys cpu_tensors sample_example false (Some 0%Z))
      as [_ Hall].
    eexists. split.
    + apply (Hall (VInt 1) (VInt 9) (VBlob 2) (VBlob 3) (VBlob 4) (VBlob 5) (VBlob 6));
        reflexivity.
    + repeat split; reflexivity.
Defined.
